(** * organize_desktop.py: a shallow embedding and its verified properties

    The program moves the regular files of a source folder into category
    folders chosen by file extension, records the moves of each live run
    in a JSON history file kept in the source folder, and can undo the
    last recorded run.

    The file system is a finite map from absolute paths (lists of path
    components, the root being the empty list) to nodes; the logger is
    the list of emitted records; exceptions are explicit results that
    carry the world reached when they were raised.

    Conventions of the model:
    - names and extensions are ASCII strings ([lower] folds A-Z only);
    - [suffix] and [stem] are those of [pathlib] up to CPython 3.13;
    - [source] and [dest_parent] stand for the paths obtained after
      [expanduser().resolve()]; a path text read back from the history
      file is taken from the root; symbolic links are left out;
    - the order in which the operating system lists the source folder is
      an argument ([items]) of [run_organize];
    - the text of a file is identified up to JSON parsing: it is either a
      JSON document or a text that [json.loads] rejects; JSON numbers are
      integers;
    - the clock, the time zone and the size of a written text are taken
      from an environment [env]. *)

From Stdlib Require Import Ascii String ZArith DecimalString DecimalNat Decimal.
From stdpp Require Import gmap strings list fin_maps.

Local Open Scope Z_scope.

(** ** Strings: what the program uses of [str] and [pathlib] *)

(** [str.lower()] on ASCII text. *)
Definition lower_ascii (c : ascii) : ascii :=
  let n := nat_of_ascii c in
  if ((65 <=? n) && (n <=? 90))%nat then ascii_of_nat (n + 32) else c.

Fixpoint lower (s : string) : string :=
  match s with
  | EmptyString => EmptyString
  | String c s' => String (lower_ascii c) (lower s')
  end.

(** [s.rfind(c)]: the index of the last occurrence of [c], if any. *)
Fixpoint rfind (c : ascii) (s : string) : option nat :=
  match s with
  | EmptyString => None
  | String a s' =>
      match rfind c s' with
      | Some i => Some (S i)
      | None => if Ascii.eqb a c then Some 0%nat else None
      end
  end.

(** [PurePath.suffix] and [PurePath.stem] of a final path component: the
    extension starts at the last dot, unless that dot opens or closes the
    name. *)
Definition dot_index (name : string) : option nat :=
  match rfind "." name with
  | Some i =>
      if ((0 <? i) && (i <? String.length name - 1))%nat then Some i else None
  | None => None
  end.

Definition suffix (name : string) : string :=
  match dot_index name with
  | Some i => substring i (String.length name - i) name
  | None => ""
  end.

Definition stem (name : string) : string :=
  match dot_index name with
  | Some i => substring 0 i name
  | None => name
  end.

(** [str(n)] for a natural number: its decimal digits. *)
Definition str_of_nat (n : nat) : string :=
  NilEmpty.string_of_uint (Nat.to_uint n).

(** [f"{n:02d}"]. *)
Definition pad2 (n : nat) : string :=
  if (n <? 10)%nat then "0" +:+ str_of_nat n else str_of_nat n.

(** ** Paths *)

Abbreviation path := (list string).

(** [p / name] *)
Definition child (p : path) (name : string) : path := p ++ [name].

(** [p.parent] *)
Definition parent (p : path) : path := removelast p.

(** [p.name] *)
Definition name_of (p : path) : string := List.last p "".

(** [p.with_name(n)] *)
Definition with_name (p : path) (n : string) : path := child (parent p) n.

(** [s.split(sep)] *)
Fixpoint split (sep : ascii) (s : string) : list string :=
  match s with
  | EmptyString => [""]
  | String c s' =>
      if Ascii.eqb c sep then "" :: split sep s'
      else match split sep s' with
           | h :: t => String c h :: t
           | [] => [String c ""]
           end
  end.

(** [str(p)] of an absolute path. *)
Definition str (p : path) : string :=
  match p with
  | [] => "/"
  | _ => String.concat "" (map (fun c => "/" +:+ c) p)
  end.

(** [Path(s)]: the components of [s]; empty and ["."] components are
    dropped, as [pathlib] does when it parses a text. *)
Definition Path (s : string) : path :=
  List.filter (fun c => negb (String.eqb c "" || String.eqb c ".")) (split "/" s).

(** ** Categories (lines 29-47) *)

Definition CATEGORIES : list (string * gset string) :=
  [ ("Images", list_to_set [".png"; ".jpg"; ".jpeg"; ".gif"; ".bmp"; ".svg"; ".webp"]);
    ("Documents", list_to_set [".pdf"; ".docx"; ".doc"; ".txt"; ".md"; ".pptx"; ".xlsx"; ".csv"]);
    ("Archives", list_to_set [".zip"; ".tar"; ".gz"; ".rar"; ".7z"]);
    ("Code", list_to_set [".py"; ".js"; ".ts"; ".java"; ".c"; ".cpp"; ".go"; ".rb"; ".rs"]);
    ("Audio", list_to_set [".mp3"; ".wav"; ".flac"; ".m4a"]);
    ("Video", list_to_set [".mp4"; ".mkv"; ".mov"; ".avi"]);
    ("Installers", list_to_set [".exe"; ".msi"; ".dmg"; ".deb"; ".apk"]) ].

Definition METADATA_FILE : string := ".organize_history.json".

(** The loop of [which_category] over [CATEGORIES.items()]. *)
Fixpoint first_category (cats : list (string * gset string)) (ext : string)
  : option string :=
  match cats with
  | [] => None
  | (cat, exts) :: rest =>
      if bool_decide (ext ∈ exts) then Some cat else first_category rest ext
  end.

Definition which_category (ext : string) : option string :=
  let ext := lower ext in
  first_category CATEGORIES ext.

(** [category if category else "Other"] (line 108): [None] and the empty
    string are both falsy. *)
Definition folder_name_of (category : option string) : string :=
  match category with
  | Some c => if String.eqb c "" then "Other" else c
  | None => "Other"
  end.

(** ** JSON values and the text of files *)

#[warnings="-register-all"]
Inductive json :=
| JNull
| JBool (b : bool)
| JNum (n : Z)
| JStr (s : string)
| JArr (l : list json)
| JObj (kv : list (string * json)).

(** [d.get(k)] on the items of a JSON object. *)
Fixpoint assoc (k : string) (kv : list (string * json)) : option json :=
  match kv with
  | [] => None
  | (k', v) :: rest => if String.eqb k k' then Some v else assoc k rest
  end.

(** The text of a file, up to parsing: a JSON document, or a text that
    [json.loads] rejects. *)
Inductive content :=
| Text (s : string)
| Json (j : json).

(** [json.loads]: [None] stands for [JSONDecodeError]. *)
Definition loads (c : content) : option json :=
  match c with
  | Text _ => None
  | Json j => Some j
  end.

(** [json.dumps(o, indent=2)] *)
Definition dumps (o : json) : content := Json o.

(** ** The file system *)

Record file := mkFile { st_size : Z; st_mtime : Z; data : content }.

Inductive node :=
| Dir
| File (f : file).

Definition path_exists (m : gmap path node) (p : path) : bool :=
  match m !! p with Some _ => true | None => false end.

Definition path_is_dir (m : gmap path node) (p : path) : bool :=
  match m !! p with Some Dir => true | _ => false end.

Fixpoint is_prefix (p q : path) : bool :=
  match p, q with
  | [], _ => true
  | a :: p', b :: q' => String.eqb a b && is_prefix p' q'
  | _ :: _, [] => false
  end.

(** ** Exceptions, log records and the world *)

Inductive exn :=
| SystemExit (code : Z)
| FileNotFoundError (p : path)
| FileExistsError (p : path)
| NotADirectoryError (p : path)
| IsADirectoryError (p : path)
| ShutilError (p : path)
| JSONDecodeError
| AttributeError
| TypeError
| OutOfFuel.

Inductive level := DEBUG | INFO | WARNING | ERROR.

Definition level_no (l : level) : Z :=
  match l with DEBUG => 10 | INFO => 20 | WARNING => 30 | ERROR => 40 end.

(** One constructor per message of the program, with the values that
    the message interpolates. *)
Inductive message :=
| MsgDryMove (src dest : path)
| MsgMoved (name : string) (final : path)
| MsgNotADirectory (source : path)
| MsgSkipCategory (name : string)
| MsgSkipSmall (name : string)
| MsgDryRunCompleted
| MsgSavedHistory (history_path : path)
| MsgNoHistory
| MsgHistoryCorrupt
| MsgRestored (name : string) (to : path)
| MsgRestoreNotFound (frm : path)
| MsgUndoComplete
| MsgOrganizing (source : path) (dest_parent : option path) (dry_run : bool).

Record world := World { fs : gmap path node; log : list (level * message) }.

Definition set_fs (m : gmap path node) (w : world) : world :=
  World m (log w).

Inductive result (A : Type) :=
| Ok (a : A) (w : world)
| Raise (e : exn) (w : world).
Arguments Ok {A} a w.
Arguments Raise {A} e w.

(** Computations that read and change the world and may raise. *)
Definition M (A : Type) : Type := world -> result A.

Definition ret {A} (a : A) : M A := fun w => Ok a w.

Definition bind {A B} (m : M A) (k : A -> M B) : M B :=
  fun w => match m w with
           | Ok a w' => k a w'
           | Raise e w' => Raise e w'
           end.

Definition raise {A} (e : exn) : M A := fun w => Raise e w.

Definition get_fs : M (gmap path node) := fun w => Ok (fs w) w.

Declare Scope prog_scope.
Delimit Scope prog_scope with prog.
Notation "'let*' x ':=' m 'in' k" := (bind m (fun x => k))
  (at level 10, x name, m at level 100, k at level 200) : prog_scope.
Notation "m ;;; k" := (bind m (fun _ => k))
  (at level 100, right associativity) : prog_scope.
Local Open Scope prog_scope.

(** The logger of lines 21-26: level [INFO], so [debug] records are
    dropped. *)
Definition LOGGER_LEVEL : level := INFO.

Definition logger_log (l : level) (msg : message) : M unit :=
  fun w =>
    if level_no LOGGER_LEVEL <=? level_no l
    then Ok tt (World (fs w) (log w ++ [(l, msg)]))
    else Ok tt w.

Definition logger_debug := logger_log DEBUG.
Definition logger_info := logger_log INFO.
Definition logger_warning := logger_log WARNING.
Definition logger_error := logger_log ERROR.

(** ** File-system calls *)

(** [p.mkdir(parents=True, exist_ok=True)]: walks the components of [p]
    from the root ([base] is the part already known to be a directory),
    creates what is missing, and fails on a component that is a regular
    file; nothing is created when it fails. When the regular file is [p]
    itself, [os.mkdir(p)] raises [FileExistsError] for [p]; when it is
    met on the way, [os.mkdir(p)] raises [NotADirectoryError], again for
    the whole of [p], which is [base ++ rest] at every step. *)
Fixpoint mkdir_from (base rest : path) (m : gmap path node)
  : exn + gmap path node :=
  match rest with
  | [] => inr m
  | c :: rest' =>
      let p := child base c in
      match m !! p with
      | Some Dir => mkdir_from p rest' m
      | Some (File _) =>
          inl (match rest' with
               | [] => FileExistsError p
               | _ => NotADirectoryError (p ++ rest')
               end)
      | None => mkdir_from p rest' (<[p := Dir]> m)
      end
  end.

Definition mkdir_parents (p : path) : M unit :=
  fun w => match mkdir_from [] p (fs w) with
           | inr m => Ok tt (set_fs m w)
           | inl e => Raise e w
           end.

(** Moving a directory tree: every path below [src] is re-rooted at
    [dst]. *)
Definition reroot (src dst p : path) : path :=
  if is_prefix src p then dst ++ drop (length src) p else p.

Definition move_tree (src dst : path) (m : gmap path node) : gmap path node :=
  list_to_map ((fun pn => (reroot src dst pn.1, pn.2)) <$> map_to_list m).

(** [os.rename(src, dst)] as [shutil.move] uses it, with the copy that
    [shutil.move] falls back to where [os.rename] fails: the exception
    is the one that leaves [shutil.move]. A regular file replaces a
    regular file at [dst]. A directory is not moved onto a regular
    file: [os.rename] fails, and [copytree] refuses the existing [dst]
    with [FileExistsError], unless [dst] lies within [src]. *)
Definition os_rename (src dst : path) : M unit :=
  fun w =>
    let m := fs w in
    match m !! src with
    | None => Raise (FileNotFoundError src) w
    | Some n =>
        if negb (path_is_dir m (parent dst)) then Raise (FileNotFoundError dst) w
        else
          match n, m !! dst with
          | File f, Some Dir => Raise (IsADirectoryError dst) w
          | File f, _ => Ok tt (set_fs (<[dst := File f]> (delete src m)) w)
          | Dir, Some (File _) =>
              if is_prefix src dst then Raise (ShutilError dst) w
              else Raise (FileExistsError dst) w
          | Dir, Some Dir =>
              if bool_decide (src = dst) then Ok tt w
              else Raise (FileExistsError dst) w
          | Dir, None =>
              if is_prefix src dst then Raise (ShutilError dst) w
              else Ok tt (set_fs (move_tree src dst m) w)
          end
    end.

(** [shutil.move(src, dst)]: an existing directory at [dst] receives the
    entry under its own name, and refuses it when that name is taken. *)
Definition shutil_move (src dst : path) : M path :=
  let* m := get_fs in
  if path_is_dir m dst then
    if bool_decide (src = dst) then (os_rename src dst ;;; ret dst)
    else
      let real_dst := child dst (name_of src) in
      if path_exists m real_dst then raise (ShutilError real_dst)
      else (os_rename src real_dst ;;; ret real_dst)
  else (os_rename src dst ;;; ret dst).

Definition read_text (p : path) : M content :=
  fun w => match fs w !! p with
           | Some (File f) => Ok (data f) w
           | Some Dir => Raise (IsADirectoryError p) w
           | None => Raise (FileNotFoundError p) w
           end.

(** [json.loads(text)] *)
Definition json_loads (c : content) : M json :=
  match loads c with
  | Some j => ret j
  | None => raise JSONDecodeError
  end.

(** [try: body / except Exception: handler]; [SystemExit] is not an
    [Exception]. *)
Definition try_except {A} (body handler : M A) : M A :=
  fun w => match body w with
           | Ok a w' => Ok a w'
           | Raise (SystemExit c) w' => Raise (SystemExit c) w'
           | Raise _ w' => handler w'
           end.

(** ** What the program takes from its environment *)

Record env := Env {
  (** [datetime.fromtimestamp(t)]: the local year and month of [t] *)
  fromtimestamp : Z -> nat * nat;
  (** the number of bytes of a text once written *)
  text_size : content -> Z;
  (** the modification time given to a file written now *)
  clock : Z;
  (** [datetime.utcnow().isoformat()] *)
  utcnow_iso : string
}.

Section Program.

Variable E : env.

Definition write_text (p : path) (c : content) : M unit :=
  fun w =>
    match fs w !! p with
    | Some Dir => Raise (IsADirectoryError p) w
    | _ =>
        if path_is_dir (fs w) (parent p)
        then Ok tt (set_fs (<[p := File (mkFile (text_size E c) (clock E) c)]> (fs w)) w)
        else Raise (FileNotFoundError p) w
    end.

(** ** [safe_move] (lines 64-78) *)

(** The name tried at a given counter: [f"{dest.stem}_{counter}{dest.suffix}"]. *)
Definition numbered (dest : path) (counter : nat) : path :=
  with_name dest
    (stem (name_of dest) +:+ "_" +:+ str_of_nat counter +:+ suffix (name_of dest)).

(** The [while final.exists()] loop of lines 72-74, run for at most
    [fuel] tests. *)
Fixpoint free_path (fuel : nat) (dest final : path) (counter : nat)
    (m : gmap path node) : option path :=
  match fuel with
  | O => None
  | S fuel' =>
      if path_exists m final
      then free_path fuel' dest (numbered dest counter) (S counter) m
      else Some final
  end.

(** The loop cannot meet more taken names than the file system has
    entries, which bounds the tests it needs ([free_path_total]). *)
Definition safe_move (src dest : path) (dry_run : bool) : M (option path) :=
  mkdir_parents (parent dest) ;;;
  if dry_run then
    logger_info (MsgDryMove src dest) ;;; ret None
  else
    let* m := get_fs in
    match free_path (S (S (size m))) dest dest 1 m with
    | None => raise OutOfFuel
    | Some final =>
        let* _ := shutil_move src final in
        logger_info (MsgMoved (name_of src) final) ;;;
        ret (Some final)
    end.

(** ** [run_organize] (lines 81-143) *)

Definition CATEGORY_NAMES : list string := map fst CATEGORIES.

(** The records of lines 120 and 123. *)
Definition move_record (item final : path) : json :=
  JObj [("from", JStr (str item)); ("to", JStr (str final))].

Definition dry_record (item target : path) : json :=
  JObj [("from", JStr (str item)); ("to", JStr (str target)); ("dry_run", JBool true)].

(** Lines 107-113: the folder that receives the file [name] whose
    [stat()] is [st]. *)
Definition target_dir (dest_parent : path) (by_date : bool) (name : string)
    (st : file) : path :=
  let category := which_category (suffix name) in
  let folder_name := folder_name_of category in
  let target_parent := child dest_parent folder_name in
  if by_date then
    let mtime := fromtimestamp E (st_mtime st) in
    let sub := str_of_nat mtime.1 +:+ "-" +:+ pad2 mtime.2 in
    child target_parent sub
  else target_parent.

(** The body of the loop of lines 93-123 for the entry [name] of the
    listing; [moves] is the list that the loop appends to. *)
Definition organize_item (source dest_parent : path) (dry_run by_date : bool)
    (min_size_kb : Z) (name : string) (moves : list json) : M (list json) :=
  let item := child source name in
  let* m := get_fs in
  match m !! item with
  | Some Dir =>
      (* item.is_dir() *)
      if bool_decide (name ∈ CATEGORY_NAMES) then
        logger_debug (MsgSkipCategory name) ;;; ret moves
      else if String.eqb name METADATA_FILE then ret moves
      else ret moves
  | None =>
      (* item.stat() *)
      raise (FileNotFoundError item)
  | Some (File st) =>
      if st_size st <? min_size_kb * 1024 then
        logger_debug (MsgSkipSmall name) ;;; ret moves
      else
        let target_parent := target_dir dest_parent by_date name st in
        mkdir_parents target_parent ;;;
        let target := child target_parent name in
        let* final := safe_move item target dry_run in
        match final with
        | Some final => ret (moves ++ [move_record item final])
        | None => ret (moves ++ [dry_record item target])
        end
  end.

Fixpoint organize_items (source dest_parent : path) (dry_run by_date : bool)
    (min_size_kb : Z) (items : list string) (moves : list json) : M (list json) :=
  match items with
  | [] => ret moves
  | name :: rest =>
      let* moves := organize_item source dest_parent dry_run by_date min_size_kb name moves in
      organize_items source dest_parent dry_run by_date min_size_kb rest moves
  end.

(** The history record of one run (line 130). *)
Definition history_of (moves : list json) : json :=
  JObj [("timestamp", JStr (utcnow_iso E)); ("moves", JArr moves)].

(** Lines 130-143: the record of the run is appended to what the history
    file holds and the file is written back. *)
Definition save_history (history_path : path) (moves : list json) : M unit :=
  let history := history_of moves in
  let* m := get_fs in
  let* o :=
    if path_exists m history_path then
      let* o := try_except (let* t := read_text history_path in json_loads t)
                           (ret (JArr [])) in
      match o with
      | JArr l => ret (JArr (l ++ [history]))
      | _ => ret (JArr [o; history])
      end
    else ret (JArr [history]) in
  write_text history_path (dumps o) ;;;
  logger_info (MsgSavedHistory history_path).

(** [items] is what [source.iterdir()] yields: the names of the entries
    of [source], in the order of the operating system. *)
Definition run_organize (items : list string) (source : path)
    (dest_parent : option path) (dry_run by_date : bool) (min_size_kb : Z)
  : M unit :=
  let dest_parent := match dest_parent with Some d => d | None => source end in
  let* m := get_fs in
  if negb (path_is_dir m source) then
    logger_error (MsgNotADirectory source) ;;; raise (SystemExit 1)
  else
    let* moves := organize_items source dest_parent dry_run by_date min_size_kb items [] in
    let history_path := child source METADATA_FILE in
    if dry_run then logger_info MsgDryRunCompleted
    else save_history history_path moves.

(** ** [run_undo] (lines 146-172) *)

(** [m.get(k)]: only a dict has [get]. *)
Definition dict_get (m : json) (k : string) : M (option json) :=
  match m with
  | JObj kv => ret (assoc k kv)
  | _ => raise AttributeError
  end.

(** [Path(v)] for the value [v] of a key: only a text is accepted. *)
Definition Path_of (v : option json) : M path :=
  match v with
  | Some (JStr s) => ret (Path s)
  | _ => raise TypeError
  end.

(** [reversed(moves)]: a list yields its elements, a text its characters
    and a dict its keys, last first. *)
Definition reversed (moves : json) : M (list json) :=
  match moves with
  | JArr l => ret (rev l)
  | JStr s => ret (rev (map (fun c => JStr (String c "")) (list_ascii_of_string s)))
  | JObj kv => ret (rev (map (fun e => JStr e.1) kv))
  | _ => raise TypeError
  end.

(** The body of the loop of lines 160-168. *)
Definition undo_move (m : json) : M unit :=
  let* v := dict_get m "to" in
  let* frm := Path_of v in
  let* v := dict_get m "from" in
  let* to := Path_of v in
  let* fs := get_fs in
  if path_exists fs frm then
    mkdir_parents (parent to) ;;;
    let* _ := shutil_move frm to in
    logger_info (MsgRestored (name_of frm) to)
  else
    logger_warning (MsgRestoreNotFound frm).

Fixpoint undo_moves (ms : list json) : M unit :=
  match ms with
  | [] => ret tt
  | m :: rest => undo_move m ;;; undo_moves rest
  end.

Definition run_undo (source : path) : M unit :=
  let history_path := child source METADATA_FILE in
  let* m := get_fs in
  if negb (path_exists m history_path) then
    logger_error MsgNoHistory
  else
    let* t := read_text history_path in
    let* data := json_loads t in
    match data with
    | JArr ((_ :: _) as l) =>
        let last := List.last l JNull in
        let data := removelast l in
        let* moves := (let* v := dict_get last "moves" in
                       ret (default (JArr []) v)) in
        let* ms := reversed moves in
        undo_moves ms ;;;
        write_text history_path (dumps (JArr data)) ;;;
        logger_info MsgUndoComplete
    | _ => logger_error MsgHistoryCorrupt
    end.

(** ** [main] (lines 175-183) *)

Record args := Args {
  arg_source : path;
  arg_dest : option path;
  arg_dry_run : bool;
  arg_undo : bool;
  arg_by_date : bool;
  arg_min_size_kb : Z
}.

Definition main (items : list string) (a : args) : M unit :=
  if arg_undo a then run_undo (arg_source a)
  else
    logger_info (MsgOrganizing (arg_source a) (arg_dest a) (arg_dry_run a)) ;;;
    run_organize items (arg_source a) (arg_dest a) (arg_dry_run a)
      (arg_by_date a) (arg_min_size_kb a).

End Program.

(** ** Auxiliary notions used in the statements *)

(** Every component of [rest] below [base] is a directory of [m]. *)
Fixpoint dirs_along (base rest : path) (m : gmap path node) : Prop :=
  match rest with
  | [] => True
  | c :: rest' =>
      m !! child base c = Some Dir ∧ dirs_along (child base c) rest' m
  end.

(** [m'] is [m] with some missing paths turned into directories. *)
Definition dirs_added (m m' : gmap path node) : Prop :=
  ∀ q, m' !! q = m !! q ∨ (m !! q = None ∧ m' !! q = Some Dir).

(** The paths that the loop of [safe_move] tests, in order: [dest], then
    the names numbered 1, 2, ... *)
Definition candidate (dest : path) (k : nat) : path :=
  match k with
  | O => dest
  | S _ => numbered dest k
  end.

(** ** Sample environment and worlds for the concrete instances *)

Definition E0 : env :=
  Env (fun _ => (2024%nat, 3%nat)) (fun _ => 100) 0 "2026-01-01T00:00:00".

Definition src0 : path := ["home"; "u"; "Desktop"].

Definition hist0 : path := child src0 METADATA_FILE.

Definition plain (size : Z) (text : string) : node :=
  File (mkFile size 0 (Text text)).

Definition base_dirs : list (path * node) :=
  [ ([], Dir); (["home"], Dir); (["home"; "u"], Dir); (src0, Dir) ].

(** A desktop where [a.txt] meets two earlier files of the same name in
    [Documents]. *)
Definition w_collision : world :=
  World (list_to_map (base_dirs ++
           [ (child src0 "a.txt", plain 30 "new");
             (child src0 "Documents", Dir);
             (child (child src0 "Documents") "a.txt", plain 10 "old");
             (child (child src0 "Documents") "a_1.txt", plain 20 "older") ])) [].

(** The record of [notes.txt] moved to [Documents], as a run writes it. *)
Definition notes_record : list (string * json) :=
  [ ("from", JStr "/home/u/Desktop/notes.txt");
    ("to", JStr "/home/u/Desktop/Documents/notes.txt") ].

(** After that move, a new [notes.txt] has appeared on the desktop. *)
Definition w_clash : world :=
  World (list_to_map (base_dirs ++
           [ (child src0 "Documents", Dir);
             (child (child src0 "Documents") "notes.txt", plain 10 "moved");
             (child src0 "notes.txt", plain 20 "newer") ])) [].

(** The sequence of records that a parsed history file stands for: a
    value that is not a list counts as a single record. *)
Definition as_history (o : json) : list json :=
  match o with
  | JArr l => l
  | _ => [o]
  end.

(** The file written by [write_text]. *)
Definition written (E : env) (c : content) : node :=
  File (mkFile (text_size E c) (clock E) c).

(** The world in which a computation ends, and what it logged. *)
Definition final_world {A} (r : result A) : world :=
  match r with
  | Ok _ w => w
  | Raise _ w => w
  end.

(** The reading of the specification under which [run_undo] accepts a
    history file holding a single record object: it behaves as on the
    file holding the one-element sequence of that record. *)
Definition undo_accepts_single_record (E : env) (source : path) (w : world) : Prop :=
  ∀ (f : file) (r : list (string * json)),
    fs w !! child source METADATA_FILE = Some (File f) →
    data f = Json (JObj r) →
    run_undo E source w =
    run_undo E source
      (World (<[child source METADATA_FILE :=
                 File (mkFile (st_size f) (st_mtime f) (Json (JArr [JObj r])))]> (fs w))
             (log w)).

(** A desktop whose history file is a single record object, the file it
    records being where the record says. *)
Definition w_single_record : world :=
  World (list_to_map (base_dirs ++
           [ (child src0 "Documents", Dir);
             (child (child src0 "Documents") "notes.txt", plain 10 "moved");
             (hist0, File (mkFile 100 0
                (Json (JObj [("timestamp", JStr "2025-12-31T00:00:00");
                             ("moves", JArr [JObj notes_record])])))) ])) [].

(** A desktop whose history file does not parse. *)
Definition w_garbled : world :=
  World (list_to_map (base_dirs ++
           [ (child src0 "Documents", Dir);
             (child (child src0 "Documents") "notes.txt", plain 10 "moved");
             (hist0, plain 7 "[{from") ])) [].

(** Whether a computation ended without raising. *)
Definition succeeded {A} (r : result A) : bool :=
  match r with
  | Ok _ _ => true
  | Raise _ _ => false
  end.

(** A desktop that has not been organized yet. *)
Definition w_fresh : world :=
  World (list_to_map (base_dirs ++
           [ (child src0 "photo.png", plain 51200 "P");
             (child src0 "notes.txt", plain 10240 "N") ])) [].

(** The desktop after a first live run: [photo.png] is in [Images] and
    the history file records it. *)
Definition first_history : file :=
  mkFile 100 0
    (Json (JArr [JObj [("timestamp", JStr "2025-12-31T00:00:00");
                       ("moves", JArr [move_record (child src0 "photo.png")
                                         (child (child src0 "Images") "photo.png")])]])).

Definition w_organized : world :=
  World (list_to_map (base_dirs ++
           [ (child src0 "Images", Dir);
             (child (child src0 "Images") "photo.png", plain 51200 "P");
             (hist0, File first_history) ])) [].

(** ** The replay of a run, as the specification words it

    [replays ms w w']: the records [ms], taken in the order of the list,
    bring the world [w] to [w']. A record whose destination path is
    missing is skipped with a warning. A record whose destination path
    holds a regular file moves that file back to the source path, the
    folders of the source path being created when missing; this needs
    the source path not to be a directory. *)
Inductive replays : list json → world → world → Prop :=
| replays_done (w : world) :
    replays [] w w
| replays_skip (kv : list (string * json)) (a b : string) (ms : list json)
    (w w' : world) :
    assoc "to" kv = Some (JStr a) →
    assoc "from" kv = Some (JStr b) →
    fs w !! Path a = None →
    replays ms (World (fs w) (log w ++ [(WARNING, MsgRestoreNotFound (Path a))])) w' →
    replays (JObj kv :: ms) w w'
| replays_back (kv : list (string * json)) (a b : string) (ms : list json)
    (w w' : world) (f : file) (m1 : gmap path node) :
    assoc "to" kv = Some (JStr a) →
    assoc "from" kv = Some (JStr b) →
    fs w !! Path a = Some (File f) →
    mkdir_from [] (parent (Path b)) (fs w) = inr m1 →
    path_is_dir m1 (parent (Path b)) = true →
    path_is_dir m1 (Path b) = false →
    replays ms (World (<[Path b := File f]> (delete (Path a) m1))
                      (log w ++ [(INFO, MsgRestored (name_of (Path a)) (Path b))])) w' →
    replays (JObj kv :: ms) w w'.

(** A desktop after two runs: the second moved [photo.png] and then
    [notes.txt]; [notes.txt] has since been deleted from [Documents]. *)
Definition photo_record : list (string * json) :=
  [ ("from", JStr "/home/u/Desktop/photo.png");
    ("to", JStr "/home/u/Desktop/Images/photo.png") ].

Definition earlier_run : json :=
  JObj [("timestamp", JStr "2025-12-30T00:00:00"); ("moves", JArr [])].

Definition later_run : list (string * json) :=
  [("timestamp", JStr "2025-12-31T00:00:00");
   ("moves", JArr [JObj photo_record; JObj notes_record])].

Definition w_two_runs : world :=
  World (list_to_map (base_dirs ++
           [ (child src0 "Images", Dir);
             (child src0 "Documents", Dir);
             (child (child src0 "Images") "photo.png", plain 51200 "P");
             (hist0, File (mkFile 100 0 (Json (JArr [earlier_run; JObj later_run])))) ])) [].

(** ** Names that are path components *)

Fixpoint no_slash (s : string) : bool :=
  match s with
  | EmptyString => true
  | String c s' => negb (Ascii.eqb c "/") && no_slash s'
  end.

(** What the entries of a directory have for names: not empty, not
    ["."], without ["/"]. *)
Definition valid_name (c : string) : bool :=
  negb (String.eqb c "" || String.eqb c ".") && no_slash c.

Definition is_digit (c : ascii) : bool :=
  match Ascii.is_nat c with
  | Some _ => true
  | None => false
  end.

Definition starts_with_digit (s : string) : bool :=
  match s with
  | EmptyString => false
  | String c _ => is_digit c
  end.

(** Whether some ["_"] of [s] is followed by a digit, as in every
    numbered name. *)
Fixpoint underscore_digit (s : string) : bool :=
  match s with
  | EmptyString => false
  | String c s' => (Ascii.eqb c "_" && starts_with_digit s') || underscore_digit s'
  end.

(** ** The round trip *)

(** [m'] is [m] up to added directories, the entry of [hp] left aside. *)
Definition same_but (hp : path) (m m' : gmap path node) : Prop :=
  ∀ q, q ≠ hp → m' !! q = m !! q ∨ (m !! q = None ∧ m' !! q = Some Dir).

(** The round-trip law as the specification states it, for one live
    run: once the run has completed, [run_undo] completes and every
    regular file of the listing is at its path again. *)
Definition round_trip (E : env) (items : list string) (source : path)
    (dest_parent : option path) (by_date : bool) (min_size_kb : Z) (w : world) : Prop :=
  ∀ w2, run_organize E items source dest_parent false by_date min_size_kb w = Ok tt w2 →
    ∃ w4, run_undo E source w2 = Ok tt w4 ∧
      ∀ name f, name ∈ items →
        fs w !! child source name = Some (File f) →
        fs w4 !! child source name = Some (File f).

(** A desktop with a file named [Images], without extension, next to a
    picture. *)
Definition w_images : world :=
  World (list_to_map (base_dirs ++
           [ (child src0 "Images", plain 5 "I");
             (child src0 "a.png", plain 10240 "A") ])) [].

(** ** The entries that a run does not skip *)

(** [qualifies m source min_size_kb name]: the entry [name] of [source]
    with its [stat()], when it is a regular file of at least
    [min_size_kb] KB in the file system [m] (lines 94-105). *)
Definition qualifies (m : gmap path node) (source : path) (min_size_kb : Z)
    (name : string) : option (string * file) :=
  match m !! child source name with
  | Some (File st) =>
      if st_size st <? min_size_kb * 1024 then None else Some (name, st)
  | _ => None
  end.

Definition qualifying (m : gmap path node) (source : path) (min_size_kb : Z)
    (items : list string) : list (string * file) :=
  omap (qualifies m source min_size_kb) items.

(** ** Move records as undo needs them *)

(** A record from which [run_undo] can take its two paths: an object
    whose ["to"] and ["from"] are texts (lines 161-162). *)
Definition well_formed_record (m : json) : bool :=
  match m with
  | JObj kv =>
      match assoc "to" kv, assoc "from" kv with
      | Some (JStr _), Some (JStr _) => true
      | _, _ => false
      end
  | _ => false
  end.

(** A desktop whose history file ends with a run whose last move has
    lost its ["to"]. *)
Definition w_torn_record : world :=
  World (list_to_map (base_dirs ++
           [ (child src0 "Images", Dir);
             (child (child src0 "Images") "photo.png", plain 51200 "P");
             (hist0, File (mkFile 100 0
                (Json (JArr [earlier_run;
                   JObj [("timestamp", JStr "2025-12-31T00:00:00");
                         ("moves", JArr [JObj photo_record;
                                         JObj [("from", JStr "/home/u/Desktop/x")]])]])))) ]))
        [].

(** A desktop whose history file ends with a run that moved nothing. *)
Definition w_idle_run : world :=
  World (list_to_map (base_dirs ++
           [ (hist0, File (mkFile 100 0
                (Json (JArr [JObj later_run; earlier_run])))) ])) [].

(** ** Extensions compared without regard to case *)

(** The two characters are equal, or they are the upper-case and the
    lower-case form of one of the letters A to Z. *)
Definition same_letter (a b : ascii) : bool :=
  let x := nat_of_ascii a in
  let y := nat_of_ascii b in
  ((x =? y)
   || ((65 <=? x) && (x <=? 90) && (y =? x + 32))
   || ((65 <=? y) && (y <=? 90) && (x =? y + 32)))%nat.

(** [equal_ignoring_case s t]: [s] and [t] have the same length and, at
    every position, the same letter in either case. This is the
    comparison asked of the classifier, written without [lower]. *)
Fixpoint equal_ignoring_case (s t : string) : bool :=
  match s, t with
  | EmptyString, EmptyString => true
  | String a s', String b t' => same_letter a b && equal_ignoring_case s' t'
  | _, _ => false
  end.

(** A desktop whose history file does not parse, with a picture to
    move. *)
Definition w_garbled_photo : world :=
  World (list_to_map (base_dirs ++
           [ (child src0 "photo.png", plain 51200 "P");
             (hist0, plain 7 "[{from") ])) [].

(** * Properties *)

(** ** Strings *)

Lemma list_ascii_app (a b : string) :
  list_ascii_of_string (a +:+ b) = (list_ascii_of_string a ++ list_ascii_of_string b).
Proof. induction a as [|c a IH]; simpl; [done|]. by rewrite <- IH. Qed.

Lemma list_ascii_inj (a b : string) :
  list_ascii_of_string a = list_ascii_of_string b → a = b.
Proof.
  intros H. rewrite <- (string_of_list_ascii_of_string a),
    <- (string_of_list_ascii_of_string b). by rewrite H.
Qed.

Lemma string_app_inv_tail (a b t : string) : a +:+ t = b +:+ t → a = b.
Proof.
  intros H. apply list_ascii_inj.
  apply (f_equal list_ascii_of_string) in H. rewrite !list_ascii_app in H.
  by apply app_inv_tail in H.
Qed.

Lemma str_of_nat_inj (j k : nat) : str_of_nat j = str_of_nat k → j = k.
Proof.
  unfold str_of_nat. intros H.
  apply (f_equal NilEmpty.uint_of_string) in H. rewrite !NilEmpty.usu in H.
  injection H as H. by apply Unsigned.to_uint_inj.
Qed.

(** ** Paths *)

Lemma parent_child (p : path) (n : string) : parent (child p n) = p.
Proof. unfold parent, child. apply removelast_last. Qed.

Lemma name_of_child (p : path) (n : string) : name_of (child p n) = n.
Proof. unfold name_of, child. apply last_last. Qed.

Lemma child_inj (p q : path) (n k : string) : child p n = child q k → p = q ∧ n = k.
Proof. unfold child. intros H. by apply app_inj_tail in H. Qed.

Lemma child_not_nil (p : path) (n : string) : child p n ≠ [].
Proof. unfold child. by destruct p. Qed.

Lemma parent_with_name (p : path) (n : string) : parent (with_name p n) = parent p.
Proof. unfold with_name. apply parent_child. Qed.

Lemma numbered_inj (dest : path) (j k : nat) :
  numbered dest j = numbered dest k → j = k.
Proof.
  unfold numbered, with_name. intros [_ H]%child_inj.
  apply String.app_inj, String.app_inj in H.
  apply string_app_inv_tail in H. by apply str_of_nat_inj.
Qed.

Lemma parent_numbered (dest : path) (k : nat) : parent (numbered dest k) = parent dest.
Proof. apply parent_with_name. Qed.

(** ** Directory creation *)

Lemma dirs_added_refl m : dirs_added m m.
Proof. intros q. by left. Qed.

Lemma dirs_added_trans m1 m2 m3 :
  dirs_added m1 m2 → dirs_added m2 m3 → dirs_added m1 m3.
Proof.
  intros H12 H23 q. destruct (H12 q) as [E1|[E1 E1']], (H23 q) as [E2|[E2 E2']].
  - left. congruence.
  - right. split; congruence.
  - right. split; congruence.
  - congruence.
Qed.

Lemma dirs_added_insert m p : m !! p = None → dirs_added m (<[p := Dir]> m).
Proof.
  intros Hp q. destruct (decide (p = q)) as [->|Hne].
  - right. by rewrite lookup_insert_eq.
  - left. by rewrite lookup_insert_ne.
Qed.

Lemma dirs_added_Some m m' q n : dirs_added m m' → m !! q = Some n → m' !! q = Some n.
Proof. intros H Hq. destruct (H q) as [E|[E _]]; congruence. Qed.

Lemma dirs_added_None m m' q : dirs_added m m' → m' !! q = None → m !! q = None.
Proof. intros H Hq. destruct (H q) as [E|[E E']]; congruence. Qed.

Lemma mkdir_from_added base rest m m' :
  mkdir_from base rest m = inr m' → dirs_added m m'.
Proof.
  revert base m. induction rest as [|c rest IH]; intros base m; simpl.
  - intros [= ->]. apply dirs_added_refl.
  - destruct (m !! child base c) as [[|f]|] eqn:Hp; [|done|].
    + apply IH.
    + intros H. apply IH in H.
      eapply dirs_added_trans; [|exact H]. by apply dirs_added_insert.
Qed.

Lemma mkdir_from_dirs_along base rest m m' :
  mkdir_from base rest m = inr m' → dirs_along base rest m'.
Proof.
  revert base m. induction rest as [|c rest IH]; intros base m; simpl; [done|].
  destruct (m !! child base c) as [[|f]|] eqn:Hp; [|done|]; intros H.
  - split; [|by eapply IH].
    eapply dirs_added_Some; [by eapply mkdir_from_added|done].
  - split; [|by eapply IH].
    eapply dirs_added_Some; [by eapply mkdir_from_added|]. by rewrite lookup_insert_eq.
Qed.

Lemma mkdir_from_noop base rest m :
  dirs_along base rest m → mkdir_from base rest m = inr m.
Proof.
  revert base. induction rest as [|c rest IH]; intros base; simpl; [done|].
  intros [-> Hr]. by apply IH.
Qed.

Lemma dirs_along_last base rest m :
  dirs_along base rest m → rest ≠ [] → m !! (base ++ rest) = Some Dir.
Proof.
  revert base. induction rest as [|c rest IH]; intros base; simpl; [done|].
  intros [Hc Hr] _. destruct rest as [|c' rest'].
  - exact Hc.
  - unfold child in *. specialize (IH _ Hr). rewrite <- app_assoc in IH. by apply IH.
Qed.

Lemma dirs_along_is_dir p m :
  dirs_along [] p m → p ≠ [] → path_is_dir m p = true.
Proof.
  intros H Hp. unfold path_is_dir.
  pose proof (dirs_along_last [] p m H Hp) as Hd. simpl in Hd. by rewrite Hd.
Qed.

Lemma mkdir_parents_Ok p w m' :
  mkdir_from [] p (fs w) = inr m' → mkdir_parents p w = Ok tt (set_fs m' w).
Proof. unfold mkdir_parents. by intros ->. Qed.

(** ** The search for a free name *)

Lemma path_exists_true (m : gmap path node) (p : path) : path_exists m p = true ↔ is_Some (m !! p).
Proof. unfold path_exists. destruct (m !! p); split; (done || by inversion 1). Qed.

Lemma path_exists_false (m : gmap path node) (p : path) : path_exists m p = false ↔ m !! p = None.
Proof. unfold path_exists. by destruct (m !! p). Qed.

Lemma free_path_Some (fuel : nat) (dest : path) (k : nat) (m : gmap path node) (final : path) :
  free_path fuel dest (candidate dest k) (S k) m = Some final →
  ∃ j, (k ≤ j)%nat ∧ final = candidate dest j ∧ m !! final = None ∧
       ∀ i, (k ≤ i < j)%nat → is_Some (m !! candidate dest i).
Proof.
  revert k. induction fuel as [|fuel IH]; intros k; simpl; [done|].
  destruct (path_exists m (candidate dest k)) eqn:Hk.
  - intros H. destruct (IH (S k) H) as (j & Hj & -> & Hfree & Hall).
    exists j. split; [lia|]. split; [done|]. split; [done|].
    intros i Hi. destruct (decide (i = k)) as [->|Hne].
    + by apply path_exists_true.
    + apply Hall. lia.
  - intros [= <-]. exists k. split; [lia|]. split; [done|].
    split; [by apply path_exists_false|]. intros i Hi. lia.
Qed.

Lemma free_path_None (fuel : nat) (dest : path) (k : nat) (m : gmap path node) :
  free_path fuel dest (candidate dest k) (S k) m = None →
  ∀ i, (k ≤ i < k + fuel)%nat → is_Some (m !! candidate dest i).
Proof.
  revert k. induction fuel as [|fuel IH]; intros k; simpl; [intros _ i Hi; lia|].
  destruct (path_exists m (candidate dest k)) eqn:Hk; [|done].
  intros H i Hi. destruct (decide (i = k)) as [->|Hne].
  - by apply path_exists_true.
  - apply (IH (S k) H). lia.
Qed.

(** No more numbered names can be taken than the file system has
    entries. *)
Lemma numbered_taken_bound (dest : path) (m : gmap path node) (n : nat) :
  (∀ i, (1 ≤ i < S n)%nat → is_Some (m !! candidate dest i)) → (n ≤ size m)%nat.
Proof.
  intros Hall.
  set (l := numbered dest <$> seq 1 n).
  assert (NoDup l) as Hnd.
  { apply NoDup_fmap_2; [|apply NoDup_seq]. intros i j. apply numbered_inj. }
  assert (list_to_set (C := gset path) l ⊆ dom m) as Hsub.
  { intros p Hp%elem_of_list_to_set. apply list_elem_of_fmap in Hp as [i [-> Hi]].
    apply elem_of_seq in Hi. apply elem_of_dom.
    destruct i as [|i]; [lia|]. apply (Hall (S i)). lia. }
  apply subseteq_size in Hsub.
  rewrite size_list_to_set, size_dom in Hsub by done.
  unfold l in Hsub. by rewrite length_fmap, length_seq in Hsub.
Qed.

(** The loop of [safe_move] ends within the tests that [safe_move]
    allows: it always finds a free path. *)
Lemma free_path_total (dest : path) (m : gmap path node) :
  ∃ final, free_path (S (S (size m))) dest dest 1 m = Some final.
Proof.
  destruct (free_path (S (S (size m))) dest dest 1 m) as [final|] eqn:H; [by eexists|].
  exfalso. pose proof (free_path_None _ dest 0 m H) as Hall.
  assert (S (size m) ≤ size m)%nat; [|lia].
  apply (numbered_taken_bound dest). intros i Hi. apply Hall. lia.
Qed.

(** ** Moving a regular file *)

Lemma os_rename_file (w : world) (src dst : path) (f : file) :
  fs w !! src = Some (File f) →
  path_is_dir (fs w) dst = false →
  path_is_dir (fs w) (parent dst) = true →
  os_rename src dst w = Ok tt (set_fs (<[dst := File f]> (delete src (fs w))) w).
Proof.
  intros Hsrc Hdst Hpar. unfold os_rename. rewrite Hsrc, Hpar. simpl.
  unfold path_is_dir in Hdst. by destruct (fs w !! dst) as [[|g]|].
Qed.

Lemma shutil_move_file (w : world) (src dst : path) (f : file) :
  fs w !! src = Some (File f) →
  path_is_dir (fs w) dst = false →
  path_is_dir (fs w) (parent dst) = true →
  shutil_move src dst w = Ok dst (set_fs (<[dst := File f]> (delete src (fs w))) w).
Proof.
  intros Hsrc Hdst Hpar. unfold shutil_move, bind, get_fs. rewrite Hdst.
  by rewrite (os_rename_file w src dst f).
Qed.

(** ** [safe_move] *)

Lemma logger_info_Ok (msg : message) (w : world) :
  logger_info msg w = Ok tt (World (fs w) (log w ++ [(INFO, msg)])).
Proof. reflexivity. Qed.

Lemma logger_warning_Ok (msg : message) (w : world) :
  logger_warning msg w = Ok tt (World (fs w) (log w ++ [(WARNING, msg)])).
Proof. reflexivity. Qed.

Lemma logger_error_Ok (msg : message) (w : world) :
  logger_error msg w = Ok tt (World (fs w) (log w ++ [(ERROR, msg)])).
Proof. reflexivity. Qed.

Lemma logger_debug_Ok (msg : message) (w : world) : logger_debug msg w = Ok tt w.
Proof. reflexivity. Qed.

Lemma parent_candidate (dest : path) (j : nat) : parent (candidate dest j) = parent dest.
Proof. destruct j; [done|apply parent_numbered]. Qed.

(** A live [safe_move] of a regular file always completes: the file
    lands on the first free path among [dest], [numbered dest 1],
    [numbered dest 2], ... *)
Lemma safe_move_live (w : world) (src dest : path) (f : file) (m1 : gmap path node) :
  fs w !! src = Some (File f) →
  mkdir_from [] (parent dest) (fs w) = inr m1 →
  path_is_dir m1 (parent dest) = true →
  ∃ j : nat,
    safe_move src dest false w =
      Ok (Some (candidate dest j))
         (World (<[candidate dest j := File f]> (delete src m1))
                (log w ++ [(INFO, MsgMoved (name_of src) (candidate dest j))])) ∧
    m1 !! candidate dest j = None ∧
    ∀ i : nat, (i < j)%nat → is_Some (m1 !! candidate dest i).
Proof.
  intros Hsrc Hmk Hpar.
  destruct (free_path_total dest m1) as [final Hfree].
  destruct (free_path_Some _ dest 0 m1 final Hfree) as (j & _ & -> & Hnone & Hall).
  exists j. split; [|split; [done|]].
  - unfold safe_move, bind. rewrite (mkdir_parents_Ok _ _ _ Hmk).
    unfold get_fs, set_fs. cbn [fs]. rewrite Hfree.
    assert (fs (World m1 (log w)) !! src = Some (File f)) as Hsrc'.
    { cbn [fs]. eapply dirs_added_Some; [by eapply mkdir_from_added|done]. }
    rewrite (shutil_move_file _ src (candidate dest j) f Hsrc').
    + by rewrite logger_info_Ok.
    + cbn [fs]. unfold path_is_dir. by rewrite Hnone.
    + cbn [fs]. by rewrite parent_candidate.
  - intros i Hi. apply Hall. lia.
Qed.

Lemma safe_move_dry (w : world) (src dest : path) (m1 : gmap path node) :
  mkdir_from [] (parent dest) (fs w) = inr m1 →
  safe_move src dest true w =
    Ok None (World m1 (log w ++ [(INFO, MsgDryMove src dest)])).
Proof.
  intros Hmk. unfold safe_move, bind. rewrite (mkdir_parents_Ok _ _ _ Hmk).
  by rewrite logger_info_Ok.
Qed.

(** ** One entry of the listing *)

Section OrganizeItem.

Variable E : env.
Variables (source dest_parent : path) (by_date : bool) (min_size_kb : Z).

Lemma organize_item_dir (dry_run : bool) (name : string) (moves : list json) (w : world) :
  fs w !! child source name = Some Dir →
  organize_item E source dest_parent dry_run by_date min_size_kb name moves w
  = Ok moves w.
Proof.
  intros H. unfold organize_item, bind, get_fs. rewrite H.
  case_bool_decide; [by rewrite logger_debug_Ok|]. by destruct (String.eqb _ _).
Qed.

Lemma organize_item_missing (dry_run : bool) (name : string) (moves : list json) (w : world) :
  fs w !! child source name = None →
  organize_item E source dest_parent dry_run by_date min_size_kb name moves w
  = Raise (FileNotFoundError (child source name)) w.
Proof. intros H. unfold organize_item, bind, get_fs. by rewrite H. Qed.

Lemma organize_item_small (dry_run : bool) (name : string) (moves : list json)
    (w : world) (st : file) :
  fs w !! child source name = Some (File st) →
  st_size st < min_size_kb * 1024 →
  organize_item E source dest_parent dry_run by_date min_size_kb name moves w
  = Ok moves w.
Proof.
  intros H Hsz. unfold organize_item, bind, get_fs. rewrite H.
  apply Z.ltb_lt in Hsz. rewrite Hsz. by rewrite logger_debug_Ok.
Qed.

Lemma target_dir_not_nil (name : string) (st : file) :
  target_dir E dest_parent by_date name st ≠ [].
Proof. unfold target_dir. destruct by_date; apply child_not_nil. Qed.

Lemma organize_item_mkdir_fails (dry_run : bool) (name : string) (moves : list json)
    (w : world) (st : file) (e : exn) :
  fs w !! child source name = Some (File st) →
  min_size_kb * 1024 ≤ st_size st →
  mkdir_from [] (target_dir E dest_parent by_date name st) (fs w) = inl e →
  organize_item E source dest_parent dry_run by_date min_size_kb name moves w
  = Raise e w.
Proof.
  intros H Hsz Hmk. unfold organize_item, bind, get_fs. rewrite H.
  apply Z.ltb_ge in Hsz. rewrite Hsz. unfold mkdir_parents. by rewrite Hmk.
Qed.

Lemma organize_item_live (name : string) (moves : list json) (w : world)
    (st : file) (m1 : gmap path node) :
  let item := child source name in
  let target := child (target_dir E dest_parent by_date name st) name in
  fs w !! item = Some (File st) →
  min_size_kb * 1024 ≤ st_size st →
  mkdir_from [] (target_dir E dest_parent by_date name st) (fs w) = inr m1 →
  ∃ j : nat,
    organize_item E source dest_parent false by_date min_size_kb name moves w
    = Ok (moves ++ [move_record item (candidate target j)])
         (World (<[candidate target j := File st]> (delete item m1))
                (log w ++ [(INFO, MsgMoved name (candidate target j))])) ∧
    m1 !! candidate target j = None ∧
    ∀ i : nat, (i < j)%nat → is_Some (m1 !! candidate target i).
Proof.
  intros item target H Hsz Hmk.
  assert (fs (World m1 (log w)) !! item = Some (File st)) as Hitem.
  { cbn [fs]. eapply dirs_added_Some; [by eapply mkdir_from_added|done]. }
  assert (mkdir_from [] (parent target) (fs (World m1 (log w))) = inr m1) as Hmk'.
  { unfold target. rewrite parent_child. cbn [fs].
    apply mkdir_from_noop. by eapply mkdir_from_dirs_along. }
  destruct (safe_move_live _ item target st m1 Hitem Hmk') as (j & Hsafe & Hfree & Hall).
  { unfold target. rewrite parent_child.
    apply dirs_along_is_dir; [by eapply mkdir_from_dirs_along|].
    apply target_dir_not_nil. }
  exists j. split; [|done].
  unfold organize_item, bind, get_fs. fold item. rewrite H.
  apply Z.ltb_ge in Hsz. rewrite Hsz.
  rewrite (mkdir_parents_Ok _ _ _ Hmk). unfold set_fs. fold target.
  rewrite Hsafe. unfold ret. cbn [log]. subst item. by rewrite name_of_child.
Qed.

Lemma organize_item_dry (name : string) (moves : list json) (w : world)
    (st : file) (m1 : gmap path node) :
  let item := child source name in
  let target := child (target_dir E dest_parent by_date name st) name in
  fs w !! item = Some (File st) →
  min_size_kb * 1024 ≤ st_size st →
  mkdir_from [] (target_dir E dest_parent by_date name st) (fs w) = inr m1 →
  organize_item E source dest_parent true by_date min_size_kb name moves w
  = Ok (moves ++ [dry_record item target])
       (World m1 (log w ++ [(INFO, MsgDryMove item target)])).
Proof.
  intros item target H Hsz Hmk.
  assert (mkdir_from [] (parent target) (fs (World m1 (log w))) = inr m1) as Hmk'.
  { unfold target. rewrite parent_child. cbn [fs].
    apply mkdir_from_noop. by eapply mkdir_from_dirs_along. }
  unfold organize_item, bind, get_fs. fold item. rewrite H.
  apply Z.ltb_ge in Hsz. rewrite Hsz.
  rewrite (mkdir_parents_Ok _ _ _ Hmk). unfold set_fs. fold target.
  by rewrite (safe_move_dry _ item target m1 Hmk').
Qed.

End OrganizeItem.

(** ** The classifier *)

Lemma first_category_None (cats : list (string * gset string)) (e : string) :
  first_category cats e = None ↔ ∀ cat exts, (cat, exts) ∈ cats → e ∉ exts.
Proof.
  induction cats as [|[c es] cats IH]; simpl.
  - split; [|done]. intros _ cat exts H. by apply elem_of_nil in H.
  - case_bool_decide as He.
    + split; [done|]. intros H. exfalso. eapply (H c es); [left|done].
    + rewrite IH. split.
      * intros H cat exts [[= -> ->]|Hin]%elem_of_cons; eauto.
      * intros H cat exts Hin. apply (H cat). by right.
Qed.

Lemma first_category_name (cats : list (string * gset string)) (e cat : string) :
  first_category cats e = Some cat → cat ∈ map fst cats.
Proof.
  induction cats as [|[c es] cats IH]; simpl; [done|].
  case_bool_decide as Hd.
  - intros [= ->]. left.
  - intros H. right. by apply IH.
Qed.

(** The extension sets of the table are pairwise disjoint: an extension
    of the table is classified to the category that lists it. *)
Lemma CATEGORIES_owner (cat : string) (exts : gset string) (e : string) :
  (cat, exts) ∈ CATEGORIES → e ∈ exts → first_category CATEGORIES e = Some cat.
Proof.
  unfold CATEGORIES. rewrite !elem_of_cons, elem_of_nil.
  intros H He.
  repeat (destruct H as [H|H]; [injection H as -> ->|]); [..|done];
  set_unfold in He;
  repeat (destruct He as [->|He]; [vm_compute; reflexivity|]); done.
Qed.

Lemma same_letter_lower (a b : ascii) :
  same_letter a b = true → lower_ascii a = lower_ascii b.
Proof.
  unfold same_letter, lower_ascii. cbv zeta.
  pose proof (ascii_nat_embedding a) as Ha. pose proof (ascii_nat_embedding b) as Hb.
  intros H. apply orb_true_iff in H as [H|H]; [apply orb_true_iff in H as [H|H]|].
  - apply Nat.eqb_eq in H. assert (a = b) as -> by (rewrite <- Ha, <- Hb; by rewrite H).
    done.
  - apply andb_true_iff in H as [H Hy]. rewrite H. apply Nat.eqb_eq in Hy.
    apply andb_true_iff in H as [H1 H2]. apply Nat.leb_le in H1. apply Nat.leb_le in H2.
    assert (((65 <=? nat_of_ascii b) && (nat_of_ascii b <=? 90))%nat = false) as ->.
    { apply andb_false_iff. right. apply Nat.leb_gt. lia. }
    by rewrite <- Hy, Hb.
  - apply andb_true_iff in H as [H Hx]. rewrite H. apply Nat.eqb_eq in Hx.
    apply andb_true_iff in H as [H1 H2]. apply Nat.leb_le in H1. apply Nat.leb_le in H2.
    assert (((65 <=? nat_of_ascii a) && (nat_of_ascii a <=? 90))%nat = false) as ->.
    { apply andb_false_iff. right. apply Nat.leb_gt. lia. }
    by rewrite <- Hx, Ha.
Qed.

Lemma same_letter_lower_self (c : ascii) : same_letter c (lower_ascii c) = true.
Proof. destruct c as [[] [] [] [] [] [] [] []]; reflexivity. Qed.

Lemma equal_ignoring_case_lower (s t : string) :
  equal_ignoring_case s t = true → lower s = lower t.
Proof.
  revert t. induction s as [|a s IH]; intros [|b t]; simpl; try done.
  intros [Hab Hst]%andb_true_iff.
  by rewrite (same_letter_lower a b Hab), (IH t Hst).
Qed.

Lemma equal_ignoring_case_lower_self (s : string) :
  equal_ignoring_case s (lower s) = true.
Proof.
  induction s as [|a s IH]; [done|]. simpl.
  by rewrite same_letter_lower_self, IH.
Qed.

(** The table lists its extensions in lower case. *)
Lemma CATEGORIES_lower (cat : string) (exts : gset string) (e : string) :
  (cat, exts) ∈ CATEGORIES → e ∈ exts → lower e = e.
Proof.
  unfold CATEGORIES. rewrite !elem_of_cons, elem_of_nil.
  intros H He.
  repeat (destruct H as [H|H]; [injection H as -> ->|]); [..|done];
  set_unfold in He;
  repeat (destruct He as [->|He]; [reflexivity|]); done.
Qed.

(** C8. For every extension [ext], compared without regard to case:
    when a category of the table lists an extension that is [ext] up to
    the case of its letters, [which_category] returns that category's
    name, which is then the folder name; when no category lists such an
    extension, [which_category] returns [None] and the folder name is
    "Other". Two extensions that differ only by case are classified
    alike. [which_category] is a total function of its argument alone. *)
Theorem which_category_correct (ext : string) :
  (∀ cat exts e, (cat, exts) ∈ CATEGORIES → e ∈ exts →
     equal_ignoring_case ext e = true →
     which_category ext = Some cat ∧ folder_name_of (which_category ext) = cat) ∧
  ((∀ cat exts e, (cat, exts) ∈ CATEGORIES → e ∈ exts →
      equal_ignoring_case ext e = false) →
     which_category ext = None ∧ folder_name_of (which_category ext) = "Other") ∧
  (∀ ext', equal_ignoring_case ext' ext = true →
     which_category ext' = which_category ext).
Proof.
  split; [|split].
  - intros cat exts e Hin He Hcase. unfold which_category. cbv zeta.
    rewrite (equal_ignoring_case_lower ext e Hcase), (CATEGORIES_lower cat exts e Hin He).
    rewrite (CATEGORIES_owner cat exts _ Hin He). split; [done|].
    simpl. destruct (String.eqb cat "") eqn:Hc; [|done].
    apply String.eqb_eq in Hc. subst cat. exfalso.
    revert Hin. unfold CATEGORIES. rewrite !elem_of_cons, elem_of_nil.
    intros H. repeat (destruct H as [H|H]; [discriminate H|]). done.
  - intros Hno. unfold which_category. cbv zeta.
    assert (first_category CATEGORIES (lower ext) = None) as ->; [|done].
    apply first_category_None. intros cat exts Hin He.
    specialize (Hno cat exts (lower ext) Hin He).
    by rewrite equal_ignoring_case_lower_self in Hno.
  - intros ext' Heq. unfold which_category.
    by rewrite (equal_ignoring_case_lower ext' ext Heq).
Qed.

Lemma which_category_correct_witness :
  (which_category ".PNG" = Some "Images" ∧
   folder_name_of (which_category ".PNG") = "Images") ∧
  (which_category ".Tar" = Some "Archives" ∧
   folder_name_of (which_category ".Tar") = "Archives") ∧
  which_category ".Png" = which_category ".PNG".
Proof.
  split; [|split].
  - apply (proj1 (which_category_correct ".PNG") "Images"
             (list_to_set [".png"; ".jpg"; ".jpeg"; ".gif"; ".bmp"; ".svg"; ".webp"])
             ".png").
    + left.
    + vm_compute. reflexivity.
    + reflexivity.
  - apply (proj1 (which_category_correct ".Tar") "Archives"
             (list_to_set [".zip"; ".tar"; ".gz"; ".rar"; ".7z"]) ".tar").
    + right. right. left.
    + vm_compute. reflexivity.
    + reflexivity.
  - apply (proj2 (proj2 (which_category_correct ".PNG"))). reflexivity.
Defined.

(** ** The collision policy *)

Lemma substring_all (s : string) : substring 0 (String.length s) s = s.
Proof. induction s as [|c s IH]; simpl; [done|]. by rewrite IH. Qed.

Lemma string_app_cons (c : ascii) (a b : string) :
  String c a +:+ b = String c (a +:+ b).
Proof. reflexivity. Qed.

Lemma substring_split (s : string) (i : nat) :
  (i ≤ String.length s)%nat →
  substring 0 i s +:+ substring i (String.length s - i) s = s.
Proof.
  revert i. induction s as [|c s IH]; intros [|i] Hi; simpl in *; try lia.
  - done.
  - by rewrite substring_all.
  - rewrite string_app_cons, IH by lia. done.
Qed.

Lemma dot_index_lt (name : string) (i : nat) :
  dot_index name = Some i → (0 < i < String.length name - 1)%nat.
Proof.
  unfold dot_index. destruct (rfind "." name) as [k|]; [|done].
  destruct (_ && _) eqn:Hb; [|done]. intros [= <-].
  apply andb_true_iff in Hb as [H1 H2].
  apply Nat.ltb_lt in H1. apply Nat.ltb_lt in H2. lia.
Qed.

(** A name is its stem followed by its suffix. *)
Lemma stem_suffix (name : string) : stem name +:+ suffix name = name.
Proof.
  unfold stem, suffix. destruct (dot_index name) as [i|] eqn:Hi.
  - apply substring_split. apply dot_index_lt in Hi. lia.
  - clear Hi. induction name as [|c s IH]; [done|].
    by rewrite string_app_cons, IH.
Qed.

Lemma string_app_nil_r (s : string) : s +:+ "" = s.
Proof. induction s as [|c s IH]; [done|]. by rewrite string_app_cons, IH. Qed.

Lemma string_app_nil_l (s : string) : "" +:+ s = s.
Proof. reflexivity. Qed.

Lemma string_length_app (a b : string) :
  String.length (a +:+ b) = (String.length a + String.length b)%nat.
Proof.
  induction a as [|c a IH]; [by rewrite string_app_nil_l|].
  rewrite string_app_cons. simpl. by rewrite IH.
Qed.

Lemma string_app_assoc (a b c : string) : (a +:+ b) +:+ c = a +:+ (b +:+ c).
Proof.
  induction a as [|x a IH]; [by rewrite !string_app_nil_l|].
  by rewrite !string_app_cons, IH.
Qed.

Lemma rfind_app (c : ascii) (a b : string) :
  rfind c (a +:+ b) =
    match rfind c b with
    | Some i => Some (String.length a + i)%nat
    | None => rfind c a
    end.
Proof.
  induction a as [|x a IH].
  - rewrite string_app_nil_l. by destruct (rfind c b).
  - rewrite string_app_cons. cbn [rfind String.length]. rewrite IH.
    by destruct (rfind c b).
Qed.

Lemma rfind_substring (c : ascii) (s : string) (i : nat) :
  rfind c s = Some i →
  rfind c (substring i (String.length s - i) s) = Some 0%nat.
Proof.
  revert i. induction s as [|x s IH]; intros i; [done|].
  cbn [rfind]. destruct (rfind c s) as [k|] eqn:Hk.
  - intros [= <-]. simpl. by apply IH.
  - destruct (Ascii.eqb x c) eqn:Hx; [|done]. intros [= <-].
    rewrite Nat.sub_0_r, substring_all. cbn [rfind]. by rewrite Hk, Hx.
Qed.

Lemma substring_prefix_length (s : string) (i : nat) :
  (i ≤ String.length s)%nat → String.length (substring 0 i s) = i.
Proof.
  revert i. induction s as [|c s IH]; intros [|i] Hi; simpl in *; try lia; try done.
  rewrite IH; lia.
Qed.

Lemma substring_app_l (a b : string) : substring 0 (String.length a) (a +:+ b) = a.
Proof.
  induction a as [|x a IH].
  - rewrite string_app_nil_l. by destruct b.
  - rewrite string_app_cons. simpl. by rewrite IH.
Qed.

Lemma substring_app_r (a b : string) :
  substring (String.length a) (String.length (a +:+ b) - String.length a) (a +:+ b) = b.
Proof.
  induction a as [|x a IH].
  - rewrite string_app_nil_l. simpl. by rewrite Nat.sub_0_r, substring_all.
  - rewrite string_app_cons. simpl. exact IH.
Qed.

(** An extension starts with its only dot and has a character after it. *)
Lemma suffix_shape (name : string) :
  suffix name ≠ "" →
  rfind "." (suffix name) = Some 0%nat ∧ (2 ≤ String.length (suffix name))%nat.
Proof.
  intros Hne. pose proof (stem_suffix name) as Hsplit.
  unfold suffix, stem in *. destruct (dot_index name) as [i|] eqn:Hi; [|done].
  pose proof (dot_index_lt name i Hi) as Hlt. split.
  - apply rfind_substring. unfold dot_index in Hi.
    destruct (rfind "." name) as [k|]; [|done].
    destruct (_ && _); [|done]. by injection Hi as ->.
  - apply (f_equal String.length) in Hsplit.
    rewrite string_length_app, substring_prefix_length in Hsplit by lia. lia.
Qed.

Lemma suffix_app (pre sfx : string) :
  (0 < String.length pre)%nat →
  rfind "." sfx = Some 0%nat →
  (2 ≤ String.length sfx)%nat →
  suffix (pre +:+ sfx) = sfx ∧ stem (pre +:+ sfx) = pre.
Proof.
  intros Hpre Hdot Hlen.
  assert (dot_index (pre +:+ sfx) = Some (String.length pre)) as Hi.
  { unfold dot_index. rewrite rfind_app, Hdot, Nat.add_0_r, string_length_app.
    assert (((0 <? String.length pre) &&
             (String.length pre <? String.length pre + String.length sfx - 1))%nat = true)
      as ->; [|done].
    apply andb_true_iff. split; apply Nat.ltb_lt; lia. }
  unfold suffix, stem. rewrite Hi. split.
  - apply substring_app_r.
  - apply substring_app_l.
Qed.

Lemma rfind_absent (c : ascii) (s : string) :
  c ∉ list_ascii_of_string s → rfind c s = None.
Proof.
  induction s as [|x s IH]; [done|]. cbn [list_ascii_of_string rfind].
  intros Hnot. rewrite IH.
  - destruct (Ascii.eqb x c) eqn:Hx; [|done].
    apply Ascii.eqb_eq in Hx. subst x. exfalso. apply Hnot. left.
  - intros Hin. apply Hnot. by right.
Qed.

(** The stem and the suffix of a name [base.ext]. *)
Lemma stem_suffix_dot (base ext : string) :
  base ≠ "" → ext ≠ "" → "."%char ∉ list_ascii_of_string ext →
  suffix (base +:+ "." +:+ ext) = "." +:+ ext ∧ stem (base +:+ "." +:+ ext) = base.
Proof.
  intros Hbase Hext Hdot. apply suffix_app.
  - destruct base; [done|]. simpl. lia.
  - change ("." +:+ ext) with (String "." ext). cbn [rfind].
    by rewrite (rfind_absent _ _ Hdot).
  - destruct ext; [done|]. change ("." +:+ String a ext) with (String "." (String a ext)).
    simpl. lia.
Qed.

(** C6. In live mode, when the candidate destination [target] of a file
    is already taken, the file is moved to [numbered target N], the name
    "stem_N suffix" in the same folder, for the least [N >= 1] whose path
    is free: the names numbered below [N] are all taken, the path used is
    free when the file is moved, the entry found at [target] is left in
    place, and the record appended for the file is the object whose
    ["from"] is the text of the path of the file and whose ["to"] is
    the text of the path actually used. For a name [base.ext], the name
    used is [base_N.ext]. *)
Theorem collision_policy (E : env) (source dest_parent : path) (by_date : bool)
    (min_size_kb : Z) (name : string) (moves : list json) (w : world)
    (st : file) (m1 : gmap path node) :
  let item := child source name in
  let target := child (target_dir E dest_parent by_date name st) name in
  fs w !! item = Some (File st) →
  min_size_kb * 1024 ≤ st_size st →
  mkdir_from [] (target_dir E dest_parent by_date name st) (fs w) = inr m1 →
  is_Some (fs w !! target) →
  ∃ N : nat,
    (1 ≤ N)%nat ∧
    numbered target N =
      child (target_dir E dest_parent by_date name st)
            (stem name +:+ "_" +:+ str_of_nat N +:+ suffix name) ∧
    (∀ base ext : string,
       name = base +:+ "." +:+ ext →
       base ≠ "" → ext ≠ "" → "."%char ∉ list_ascii_of_string ext →
       numbered target N =
         child (target_dir E dest_parent by_date name st)
               (base +:+ "_" +:+ str_of_nat N +:+ "." +:+ ext)) ∧
    m1 !! numbered target N = None ∧
    (∀ k : nat, (1 ≤ k < N)%nat → is_Some (m1 !! numbered target k)) ∧
    organize_item E source dest_parent false by_date min_size_kb name moves w
    = Ok (moves ++ [JObj [("from", JStr (str item));
                          ("to", JStr (str (numbered target N)))]])
         (World (<[numbered target N := File st]> (delete item m1))
                (log w ++ [(INFO, MsgMoved name (numbered target N))])) ∧
    (target ≠ item →
     (<[numbered target N := File st]> (delete item m1)) !! target = fs w !! target).
Proof.
  intros item target Hitem Hsz Hmk Htaken.
  destruct (organize_item_live E source dest_parent by_date min_size_kb name moves
              w st m1 Hitem Hsz Hmk) as (j & Hrun & Hfree & Hall).
  fold item target in Hrun, Hfree, Hall.
  assert (is_Some (m1 !! target)) as Htaken'.
  { destruct Htaken as [n Hn]. exists n.
    eapply dirs_added_Some; [by eapply mkdir_from_added|done]. }
  destruct j as [|j].
  { simpl in Hfree. rewrite Hfree in Htaken'. by destruct Htaken' as [? ?]. }
  change (candidate target (S j)) with (numbered target (S j)) in *.
  assert (numbered target (S j) =
            child (target_dir E dest_parent by_date name st)
                  (stem name +:+ "_" +:+ str_of_nat (S j) +:+ suffix name)) as Hname.
  { unfold numbered, with_name, target. by rewrite parent_child, name_of_child. }
  exists (S j). split; [lia|]. split; [exact Hname|]. split.
  { intros base ext -> Hbase Hext Hdot. rewrite Hname.
    destruct (stem_suffix_dot base ext Hbase Hext Hdot) as [-> ->]. done. }
  split; [done|]. split.
  { intros k Hk. destruct k as [|k]; [lia|]. apply (Hall (S k)). lia. }
  split; [exact Hrun|]. intros Hne.
  assert (numbered target (S j) ≠ target) as Hne'.
  { intros Heq. rewrite Heq in Hfree. rewrite Hfree in Htaken'. by destruct Htaken'. }
  rewrite lookup_insert_ne by done. rewrite lookup_delete_ne by done.
  destruct Htaken as [n Hn]. rewrite Hn.
  eapply dirs_added_Some; [by eapply mkdir_from_added|done].
Qed.

Lemma collision_policy_witness :
  organize_item E0 src0 src0 false false 0 "a.txt" [] w_collision
  = Ok [JObj [("from", JStr "/home/u/Desktop/a.txt");
              ("to", JStr "/home/u/Desktop/Documents/a_2.txt")]]
       (World (<[ ["home"; "u"; "Desktop"; "Documents"; "a_2.txt"] :=
                  File (mkFile 30 0 (Text "new"))]>
                 (delete ["home"; "u"; "Desktop"; "a.txt"] (fs w_collision)))
              [(INFO, MsgMoved "a.txt" ["home"; "u"; "Desktop"; "Documents"; "a_2.txt"])]) ∧
  fs w_collision !! ["home"; "u"; "Desktop"; "Documents"; "a.txt"]
    = Some (File (mkFile 10 0 (Text "old"))) ∧
  fs w_collision !! ["home"; "u"; "Desktop"; "Documents"; "a_1.txt"]
    = Some (File (mkFile 20 0 (Text "older"))).
Proof.
  destruct (collision_policy E0 src0 src0 false 0 "a.txt" [] w_collision
              (mkFile 30 0 (Text "new")) (fs w_collision))
    as (N & HN & _ & Hdot & Hfree & Hall & Hrun & _).
  - vm_compute. reflexivity.
  - vm_compute. discriminate.
  - apply mkdir_from_noop. vm_compute. repeat split; reflexivity.
  - vm_compute. eexists. reflexivity.
  - split; [|split; vm_compute; reflexivity].
    destruct N as [|[|[|N]]].
    + lia.
    + vm_compute in Hfree. discriminate Hfree.
    + exact Hrun.
    + destruct (Hall 2%nat) as [x Hx]; [lia|].
      vm_compute in Hx. discriminate Hx.
Defined.

(** ** One record of the undo loop *)

Lemma undo_move_unfold (kv : list (string * json)) (a b : string) (w : world) :
  assoc "to" kv = Some (JStr a) →
  assoc "from" kv = Some (JStr b) →
  undo_move (JObj kv) w =
    (if path_exists (fs w) (Path a) then
       bind (mkdir_parents (parent (Path b)))
         (fun _ => bind (shutil_move (Path a) (Path b))
            (fun _ => logger_info (MsgRestored (name_of (Path a)) (Path b)))) w
     else logger_warning (MsgRestoreNotFound (Path a)) w).
Proof.
  intros Ha Hb. unfold undo_move, bind at 1 2 3 4 5, dict_get, ret.
  rewrite Ha. simpl. rewrite Hb. simpl. unfold get_fs.
  by destruct (path_exists (fs w) (Path a)).
Qed.

(** A record whose destination is gone is skipped with a warning. *)
Lemma undo_move_missing (kv : list (string * json)) (a b : string) (w : world) :
  assoc "to" kv = Some (JStr a) →
  assoc "from" kv = Some (JStr b) →
  fs w !! Path a = None →
  undo_move (JObj kv) w =
    Ok tt (World (fs w) (log w ++ [(WARNING, MsgRestoreNotFound (Path a))])).
Proof.
  intros Ha Hb Hnone. rewrite (undo_move_unfold kv a b w Ha Hb).
  apply path_exists_false in Hnone. by rewrite Hnone.
Qed.

(** A regular file found at the destination goes back to the source
    path, whose folders are created when missing, whatever regular file
    the source path holds. *)
Lemma undo_move_file (kv : list (string * json)) (a b : string) (w : world)
    (f : file) (m1 : gmap path node) :
  assoc "to" kv = Some (JStr a) →
  assoc "from" kv = Some (JStr b) →
  fs w !! Path a = Some (File f) →
  mkdir_from [] (parent (Path b)) (fs w) = inr m1 →
  path_is_dir m1 (parent (Path b)) = true →
  path_is_dir m1 (Path b) = false →
  undo_move (JObj kv) w =
    Ok tt (World (<[Path b := File f]> (delete (Path a) m1))
                 (log w ++ [(INFO, MsgRestored (name_of (Path a)) (Path b))])).
Proof.
  intros Ha Hb Hfile Hmk Hpar Hnd. rewrite (undo_move_unfold kv a b w Ha Hb).
  assert (path_exists (fs w) (Path a) = true) as ->.
  { apply path_exists_true. by rewrite Hfile. }
  unfold bind. rewrite (mkdir_parents_Ok _ _ _ Hmk). unfold set_fs.
  rewrite (shutil_move_file _ (Path a) (Path b) f).
  - by rewrite logger_info_Ok.
  - cbn [fs]. eapply dirs_added_Some; [by eapply mkdir_from_added|done].
  - done.
  - done.
Qed.

(** ** Undo overwrites what it finds at the source path *)

(** C10. Undoing a record whose destination holds a regular file moves
    that file onto the source path without any test of what is there: a
    regular file found at the source path is replaced, only the
    "Restored" record is logged, and its former entry is in no path of
    the resulting file system. The forward move of the same file to the
    same taken path goes to a numbered name instead and leaves the entry
    in place. *)
Theorem undo_overwrites_source (kv : list (string * json)) (a b : string)
    (w : world) (f g : file) :
  assoc "to" kv = Some (JStr a) →
  assoc "from" kv = Some (JStr b) →
  fs w !! Path a = Some (File f) →
  fs w !! Path b = Some (File g) →
  Path a ≠ Path b →
  dirs_along [] (parent (Path b)) (fs w) →
  path_is_dir (fs w) (parent (Path b)) = true →
  undo_move (JObj kv) w =
    Ok tt (World (<[Path b := File f]> (delete (Path a) (fs w)))
                 (log w ++ [(INFO, MsgRestored (name_of (Path a)) (Path b))])) ∧
  ∃ N : nat,
    (1 ≤ N)%nat ∧
    safe_move (Path a) (Path b) false w =
      Ok (Some (numbered (Path b) N))
         (World (<[numbered (Path b) N := File f]> (delete (Path a) (fs w)))
                (log w ++ [(INFO, MsgMoved (name_of (Path a)) (numbered (Path b) N))])) ∧
    (<[numbered (Path b) N := File f]> (delete (Path a) (fs w))) !! Path b
    = Some (File g).
Proof.
  intros Ha Hb Hf Hg Hne Hdirs Hpar.
  pose proof (mkdir_from_noop [] (parent (Path b)) (fs w) Hdirs) as Hmk.
  split.
  - apply (undo_move_file kv a b w f (fs w)); try done.
    unfold path_is_dir. by rewrite Hg.
  - destruct (safe_move_live w (Path a) (Path b) f (fs w) Hf Hmk Hpar)
      as (j & Hrun & Hfree & _).
    destruct j as [|j]; [simpl in Hfree; congruence|].
    change (candidate (Path b) (S j)) with (numbered (Path b) (S j)) in *.
    exists (S j). split; [lia|]. split; [done|].
    rewrite lookup_insert_ne by congruence.
    by rewrite lookup_delete_ne.
Qed.

Lemma undo_overwrites_source_witness :
  undo_move (JObj notes_record) w_clash =
    Ok tt (World (<[child src0 "notes.txt" := plain 10 "moved"]>
                    (delete (child (child src0 "Documents") "notes.txt") (fs w_clash)))
                 [(INFO, MsgRestored "notes.txt" (child src0 "notes.txt"))]).
Proof.
  refine (proj1 (undo_overwrites_source notes_record
            "/home/u/Desktop/Documents/notes.txt" "/home/u/Desktop/notes.txt"
            w_clash (mkFile 10 0 (Text "moved")) (mkFile 20 0 (Text "newer"))
            _ _ _ _ _ _ _)).
  - reflexivity.
  - reflexivity.
  - vm_compute. reflexivity.
  - vm_compute. reflexivity.
  - vm_compute. discriminate.
  - vm_compute. repeat split; reflexivity.
  - vm_compute. reflexivity.
Defined.

(** ** The history file: reading and writing *)

Section History.

Variable E : env.

Lemma run_undo_no_history (source : path) (w : world) :
  fs w !! child source METADATA_FILE = None →
  run_undo E source w = Ok tt (World (fs w) (log w ++ [(ERROR, MsgNoHistory)])).
Proof.
  intros H. unfold run_undo, bind, get_fs.
  apply path_exists_false in H. by rewrite H.
Qed.

Lemma run_undo_read (source : path) (w : world) (f : file) :
  fs w !! child source METADATA_FILE = Some (File f) →
  run_undo E source w =
    match loads (data f) with
    | None => Raise JSONDecodeError w
    | Some (JArr ((_ :: _) as l)) =>
        bind (bind (dict_get (List.last l JNull) "moves")
                   (fun v => ret (default (JArr []) v)))
          (fun moves => bind (reversed moves)
             (fun ms => bind (undo_moves ms)
                (fun _ => bind (write_text E (child source METADATA_FILE)
                                  (dumps (JArr (removelast l))))
                   (fun _ => logger_info MsgUndoComplete)))) w
    | Some _ => Ok tt (World (fs w) (log w ++ [(ERROR, MsgHistoryCorrupt)]))
    end.
Proof.
  intros H. unfold run_undo, bind at 1 2 3, get_fs, read_text, json_loads.
  assert (path_exists (fs w) (child source METADATA_FILE) = true) as ->.
  { apply path_exists_true. by rewrite H. }
  simpl. rewrite H. destruct (loads (data f)) as [j|]; [|done].
  unfold ret. by destruct j as [| | | |[|x l]|].
Qed.

(** A history file that parses to anything but a non-empty list is
    reported and nothing is changed. *)
Lemma run_undo_corrupt (source : path) (w : world) (f : file) (j : json) :
  fs w !! child source METADATA_FILE = Some (File f) →
  loads (data f) = Some j →
  (∀ x l, j ≠ JArr (x :: l)) →
  run_undo E source w = Ok tt (World (fs w) (log w ++ [(ERROR, MsgHistoryCorrupt)])).
Proof.
  intros H Hj Hno. rewrite (run_undo_read source w f H), Hj.
  destruct j as [| | | |[|x l]|]; try done. by destruct (Hno x l).
Qed.

(** A history file that does not parse makes [run_undo] raise. *)
Lemma run_undo_unparseable (source : path) (w : world) (f : file) :
  fs w !! child source METADATA_FILE = Some (File f) →
  loads (data f) = None →
  run_undo E source w = Raise JSONDecodeError w.
Proof. intros H Hj. by rewrite (run_undo_read source w f H), Hj. Qed.

Lemma write_text_Ok (p : path) (c : content) (w : world) :
  fs w !! p ≠ Some Dir →
  path_is_dir (fs w) (parent p) = true →
  write_text E p c w = Ok tt (World (<[p := written E c]> (fs w)) (log w)).
Proof.
  intros Hp Hpar. unfold write_text. rewrite Hpar.
  by destruct (fs w !! p) as [[|g]|].
Qed.

Lemma read_history_file (hp : path) (w : world) (f : file) :
  fs w !! hp = Some (File f) →
  try_except (bind (read_text hp) (fun t => json_loads t)) (ret (JArr [])) w =
    Ok (match loads (data f) with Some o => o | None => JArr [] end) w.
Proof.
  intros H. unfold try_except, bind, read_text, json_loads. rewrite H.
  by destruct (loads (data f)).
Qed.

(** What [save_history] writes when the history file is a regular
    file: the records the file stands for, then the record of the run;
    a file that does not parse stands for no record. *)
Lemma save_history_file (hp : path) (moves : list json) (w : world) (f : file) :
  fs w !! hp = Some (File f) →
  path_is_dir (fs w) (parent hp) = true →
  save_history E hp moves w =
    Ok tt (World (<[hp := written E (Json (JArr
                     (match loads (data f) with
                      | Some o => as_history o
                      | None => []
                      end ++ [history_of E moves])))]> (fs w))
                 (log w ++ [(INFO, MsgSavedHistory hp)])).
Proof.
  intros H Hpar. unfold save_history, bind at 1 2, get_fs.
  assert (path_exists (fs w) hp = true) as ->.
  { apply path_exists_true. by rewrite H. }
  assert (fs w !! hp ≠ Some Dir) as Hnd by (by rewrite H).
  unfold bind at 1. rewrite (read_history_file hp w f H).
  destruct (loads (data f)) as [o|]; unfold ret, bind.
  - destruct o as [| | | |l|]; simpl as_history;
      rewrite (write_text_Ok hp _ w Hnd Hpar); by rewrite logger_info_Ok.
  - rewrite (write_text_Ok hp _ w Hnd Hpar). by rewrite logger_info_Ok.
Qed.

Lemma save_history_new (hp : path) (moves : list json) (w : world) :
  fs w !! hp = None →
  path_is_dir (fs w) (parent hp) = true →
  save_history E hp moves w =
    Ok tt (World (<[hp := written E (Json (JArr [history_of E moves]))]> (fs w))
                 (log w ++ [(INFO, MsgSavedHistory hp)])).
Proof.
  intros H Hpar. unfold save_history, bind at 1 2, get_fs.
  assert (path_exists (fs w) hp = false) as -> by (by apply path_exists_false).
  unfold ret, bind.
  rewrite (write_text_Ok hp _ w) by (done || by rewrite H).
  by rewrite logger_info_Ok.
Qed.

End History.

(** C5. The failing input of the claim: on a history file whose text is
    not JSON, [run_undo] does not report the "corrupt or empty"
    condition; the [JSONDecodeError] of [json.loads] leaves it, nothing
    having been changed. The two conditions that [run_undo] does report
    are [run_undo_no_history] and [run_undo_corrupt]. *)
Theorem undo_garbled_history_raises :
  run_undo E0 src0 w_garbled = Raise JSONDecodeError w_garbled.
Proof.
  apply (run_undo_unparseable E0 src0 w_garbled (mkFile 7 0 (Text "[{from")));
    vm_compute; reflexivity.
Qed.

(** C7, as stated, fails: [run_undo] does not treat a history file that
    holds a single record object as the one-element history of that
    record. *)
Lemma single_record_history_not_undone :
  ¬ undo_accepts_single_record E0 src0 w_single_record.
Proof.
  intros H.
  specialize (H (mkFile 100 0
                   (Json (JObj [("timestamp", JStr "2025-12-31T00:00:00");
                                ("moves", JArr [JObj notes_record])])))
                [("timestamp", JStr "2025-12-31T00:00:00");
                 ("moves", JArr [JObj notes_record])]).
  assert (log (final_world (run_undo E0 src0 w_single_record))
          = [(ERROR, MsgHistoryCorrupt)]) as Hlog by (vm_compute; reflexivity).
  rewrite H in Hlog; [|vm_compute; reflexivity|reflexivity].
  vm_compute in Hlog. discriminate Hlog.
Qed.

(** C7, amended. The write of [run_organize] accepts both shapes of a
    parsed history file: a value that is not a list counts as one
    record, and what is written back is the list of the records found
    followed by the record of the run. [run_undo] accepts a list only: a
    history file that parses to anything else is reported as corrupt or
    empty, no record is replayed and nothing is changed. *)
Theorem history_shapes (E : env) (source : path) (moves : list json)
    (w : world) (f : file) (o : json) :
  fs w !! child source METADATA_FILE = Some (File f) →
  data f = Json o →
  fs w !! source = Some Dir →
  save_history E (child source METADATA_FILE) moves w =
    Ok tt (World (<[child source METADATA_FILE :=
                     written E (Json (JArr (as_history o ++ [history_of E moves])))]>
                    (fs w))
                 (log w ++ [(INFO, MsgSavedHistory (child source METADATA_FILE))])) ∧
  ((∀ l, o ≠ JArr l) →
   run_undo E source w = Ok tt (World (fs w) (log w ++ [(ERROR, MsgHistoryCorrupt)]))).
Proof.
  intros H Ho Hsrc. split.
  - rewrite (save_history_file E _ moves w f H).
    + by rewrite Ho.
    + rewrite parent_child. unfold path_is_dir. by rewrite Hsrc.
  - intros Hno. apply (run_undo_corrupt E source w f o H).
    + by rewrite Ho.
    + intros x l. apply Hno.
Qed.

Lemma history_shapes_witness :
  run_undo E0 src0 w_single_record =
    Ok tt (World (fs w_single_record) [(ERROR, MsgHistoryCorrupt)]).
Proof.
  refine (proj2 (history_shapes E0 src0 [] w_single_record
            (mkFile 100 0
               (Json (JObj [("timestamp", JStr "2025-12-31T00:00:00");
                            ("moves", JArr [JObj notes_record])])))
            (JObj [("timestamp", JStr "2025-12-31T00:00:00");
                   ("moves", JArr [JObj notes_record])]) _ _ _) _).
  - vm_compute. reflexivity.
  - reflexivity.
  - vm_compute. reflexivity.
  - intros l. discriminate.
Defined.

(** ** The loop over the listing *)

Section OrganizeItems.

Variable E : env.
Variables (source dest_parent : path) (by_date : bool) (min_size_kb : Z).

(** What one entry does in live mode when it completes: nothing, for a
    directory or a file below the size threshold; otherwise the folder
    of the file is created, the file goes to a free path and its record
    is appended. *)
Lemma organize_item_live_inv (name : string) (moves moves' : list json) (w w1 : world) :
  organize_item E source dest_parent false by_date min_size_kb name moves w
  = Ok moves' w1 →
  (moves' = moves ∧ w1 = w) ∨
  ∃ (st : file) (m1 : gmap path node) (j : nat),
    let item := child source name in
    let final := candidate (child (target_dir E dest_parent by_date name st) name) j in
    fs w !! item = Some (File st) ∧
    mkdir_from [] (target_dir E dest_parent by_date name st) (fs w) = inr m1 ∧
    m1 !! final = None ∧
    moves' = moves ++ [move_record item final] ∧
    w1 = World (<[final := File st]> (delete item m1))
               (log w ++ [(INFO, MsgMoved name final)]).
Proof.
  intros Hrun.
  destruct (fs w !! child source name) as [[|st]|] eqn:Hitem.
  - rewrite organize_item_dir in Hrun by done. left. by injection Hrun.
  - destruct (decide (st_size st < min_size_kb * 1024)) as [Hsz|Hsz].
    { rewrite (organize_item_small E _ _ _ _ _ _ _ _ st) in Hrun by done.
      left. by injection Hrun. }
    apply Z.nlt_ge in Hsz.
    destruct (mkdir_from [] (target_dir E dest_parent by_date name st) (fs w))
      as [e|m1] eqn:Hmk.
    { by rewrite (organize_item_mkdir_fails E _ _ _ _ _ _ _ _ st e) in Hrun. }
    destruct (organize_item_live E source dest_parent by_date min_size_kb name moves
                w st m1 Hitem Hsz Hmk) as (j & Hlive & Hfree & _).
    rewrite Hlive in Hrun. injection Hrun as <- <-.
    right. by exists st, m1, j.
  - by rewrite organize_item_missing in Hrun.
Qed.

Lemma organize_item_dry_inv (name : string) (moves moves' : list json) (w w1 : world) :
  organize_item E source dest_parent true by_date min_size_kb name moves w
  = Ok moves' w1 →
  (moves' = moves ∧ w1 = w) ∨
  ∃ (st : file) (m1 : gmap path node),
    let item := child source name in
    let target := child (target_dir E dest_parent by_date name st) name in
    fs w !! item = Some (File st) ∧
    mkdir_from [] (target_dir E dest_parent by_date name st) (fs w) = inr m1 ∧
    moves' = moves ++ [dry_record item target] ∧
    w1 = World m1 (log w ++ [(INFO, MsgDryMove item target)]).
Proof.
  intros Hrun.
  destruct (fs w !! child source name) as [[|st]|] eqn:Hitem.
  - rewrite organize_item_dir in Hrun by done. left. by injection Hrun.
  - destruct (decide (st_size st < min_size_kb * 1024)) as [Hsz|Hsz].
    { rewrite (organize_item_small E _ _ _ _ _ _ _ _ st) in Hrun by done.
      left. by injection Hrun. }
    apply Z.nlt_ge in Hsz.
    destruct (mkdir_from [] (target_dir E dest_parent by_date name st) (fs w))
      as [e|m1] eqn:Hmk.
    { by rewrite (organize_item_mkdir_fails E _ _ _ _ _ _ _ _ st e) in Hrun. }
    rewrite (organize_item_dry E source dest_parent by_date min_size_kb name moves
               w st m1 Hitem Hsz Hmk) in Hrun.
    injection Hrun as <- <-. right. by exists st, m1.
  - by rewrite organize_item_missing in Hrun.
Qed.

Lemma organize_items_cons (dry_run : bool) (name : string) (items : list string)
    (moves : list json) (w : world) :
  organize_items E source dest_parent dry_run by_date min_size_kb (name :: items) moves w
  = match organize_item E source dest_parent dry_run by_date min_size_kb name moves w with
    | Ok moves' w' =>
        organize_items E source dest_parent dry_run by_date min_size_kb items moves' w'
    | Raise e w' => Raise e w'
    end.
Proof. reflexivity. Qed.

(** A live run removes no directory and logs [INFO] records only. *)
Lemma organize_items_live_frame (items : list string) (moves moves' : list json)
    (w w1 : world) :
  organize_items E source dest_parent false by_date min_size_kb items moves w
  = Ok moves' w1 →
  (∀ q, fs w !! q = Some Dir → fs w1 !! q = Some Dir) ∧
  ∃ l, log w1 = log w ++ l ∧ Forall (fun r => r.1 = INFO) l.
Proof.
  revert moves w. induction items as [|name items IH]; intros moves w Hrun.
  - injection Hrun as <- <-. split; [done|]. exists []. by rewrite app_nil_r.
  - rewrite organize_items_cons in Hrun.
    destruct (organize_item E source dest_parent false by_date min_size_kb name moves w)
      as [moves1 w'|] eqn:Hitem; [|done].
    destruct (IH _ _ Hrun) as (Hdirs & l & Hlog & Hinfo).
    apply organize_item_live_inv in Hitem
      as [[-> ->]|(st & m1 & j & Hfile & Hmk & Hfree & -> & ->)].
    { split; [done|]. by exists l. }
    split.
    + intros q Hq. apply Hdirs. cbn [fs].
      assert (m1 !! q = Some Dir) as Hq1.
      { eapply dirs_added_Some; [by eapply mkdir_from_added|done]. }
      rewrite lookup_insert_ne by congruence.
      rewrite lookup_delete_ne; [done|]. intros <-.
      apply (dirs_added_Some _ m1) in Hfile; [congruence|by eapply mkdir_from_added].
    + cbn [log] in Hlog. rewrite <- app_assoc in Hlog.
      eexists. split; [exact Hlog|]. by constructor.
Qed.

(** A dry run only adds directories: whatever existed is as it was. *)
Lemma organize_items_dry_frame (items : list string) (moves moves' : list json)
    (w w1 : world) :
  organize_items E source dest_parent true by_date min_size_kb items moves w
  = Ok moves' w1 →
  dirs_added (fs w) (fs w1).
Proof.
  revert moves w. induction items as [|name items IH]; intros moves w Hrun.
  - injection Hrun as <- <-. apply dirs_added_refl.
  - rewrite organize_items_cons in Hrun.
    destruct (organize_item E source dest_parent true by_date min_size_kb name moves w)
      as [moves1 w'|] eqn:Hitem; [|done].
    specialize (IH _ _ Hrun).
    apply organize_item_dry_inv in Hitem
      as [[-> ->]|(st & m1 & Hfile & Hmk & -> & ->)]; [done|].
    eapply dirs_added_trans; [by eapply mkdir_from_added|exact IH].
Qed.

End OrganizeItems.

(** ** The run as a whole *)

Lemma run_organize_unfold (E : env) (items : list string) (source : path)
    (dest_parent : option path) (dry_run by_date : bool) (min_size_kb : Z) (w : world) :
  fs w !! source = Some Dir →
  run_organize E items source dest_parent dry_run by_date min_size_kb w =
    match organize_items E source (default source dest_parent) dry_run by_date
            min_size_kb items [] w with
    | Ok moves w1 =>
        if dry_run then logger_info MsgDryRunCompleted w1
        else save_history E (child source METADATA_FILE) moves w1
    | Raise e w1 => Raise e w1
    end.
Proof.
  intros Hsrc. unfold run_organize, bind at 1, get_fs.
  assert (path_is_dir (fs w) source = true) as ->.
  { unfold path_is_dir. by rewrite Hsrc. }
  change (negb true) with false. cbv beta iota. unfold bind.
  destruct dest_parent as [d|]; simpl default;
    destruct (organize_items _ _ _ _ _ _ _ _ _); by destruct dry_run.
Qed.

(** C9. When a live run reaches the write of the history file and the
    file then holds a text that does not parse, the run completes and
    the file is replaced by the list holding one record alone, that of
    this run: the object with the time of the run under ["timestamp"]
    and, under ["moves"], the moves that the run has made. Whatever the
    file held is gone, and from its start to its end the run has logged
    [INFO] records only: no warning, no error. *)
Theorem unparseable_history_replaced (E : env) (items : list string) (source : path)
    (dest_parent : option path) (by_date : bool) (min_size_kb : Z)
    (w w1 : world) (moves : list json) (f : file) :
  fs w !! source = Some Dir →
  organize_items E source (default source dest_parent) false by_date min_size_kb
    items [] w = Ok moves w1 →
  fs w1 !! child source METADATA_FILE = Some (File f) →
  loads (data f) = None →
  run_organize E items source dest_parent false by_date min_size_kb w =
    Ok tt (World (<[child source METADATA_FILE :=
                     written E (Json (JArr [JObj [("timestamp", JStr (utcnow_iso E));
                                                  ("moves", JArr moves)]]))]> (fs w1))
                 (log w1 ++ [(INFO, MsgSavedHistory (child source METADATA_FILE))])) ∧
  ∃ l, log w1 ++ [(INFO, MsgSavedHistory (child source METADATA_FILE))] = log w ++ l ∧
       Forall (fun r => r.1 = INFO) l.
Proof.
  intros Hsrc Hloop Hfile Hbad.
  destruct (organize_items_live_frame E _ _ _ _ _ _ _ _ _ Hloop) as (Hdirs & l & Hlog & Hinfo).
  split.
  - rewrite run_organize_unfold by done. rewrite Hloop.
    rewrite (save_history_file E _ moves w1 f Hfile).
    + by rewrite Hbad.
    + rewrite parent_child. unfold path_is_dir. by rewrite (Hdirs _ Hsrc).
  - exists (l ++ [(INFO, MsgSavedHistory (child source METADATA_FILE))]).
    split; [by rewrite Hlog, app_assoc|].
    apply Forall_app. split; [done|]. by constructor.
Qed.

Lemma unparseable_history_replaced_witness :
  run_organize E0 ["photo.png"; METADATA_FILE] src0 None false false 1 w_garbled_photo =
    Ok tt
      (World
         (<[hist0 :=
              File (mkFile 100 0
                (Json (JArr [JObj [("timestamp", JStr "2026-01-01T00:00:00");
                                   ("moves",
                                    JArr [JObj [("from", JStr "/home/u/Desktop/photo.png");
                                                ("to", JStr "/home/u/Desktop/Images/photo.png")]])]])))]>
            (<[ ["home"; "u"; "Desktop"; "Images"; "photo.png"] := plain 51200 "P"]>
               (delete ["home"; "u"; "Desktop"; "photo.png"]
                  (<[ ["home"; "u"; "Desktop"; "Images"] := Dir]> (fs w_garbled_photo)))))
         [(INFO, MsgMoved "photo.png" ["home"; "u"; "Desktop"; "Images"; "photo.png"]);
          (INFO, MsgSavedHistory hist0)]).
Proof.
  refine (proj1 (unparseable_history_replaced E0 ["photo.png"; METADATA_FILE] src0 None
                   false 1 w_garbled_photo
                   (World
                      (<[ ["home"; "u"; "Desktop"; "Images"; "photo.png"] := plain 51200 "P"]>
                         (delete ["home"; "u"; "Desktop"; "photo.png"]
                            (<[ ["home"; "u"; "Desktop"; "Images"] := Dir]>
                               (fs w_garbled_photo))))
                      [(INFO, MsgMoved "photo.png"
                                ["home"; "u"; "Desktop"; "Images"; "photo.png"])])
                   [JObj [("from", JStr "/home/u/Desktop/photo.png");
                          ("to", JStr "/home/u/Desktop/Images/photo.png")]]
                   (mkFile 7 0 (Text "[{from"))
                   _ _ _ _)).
  - vm_compute. reflexivity.
  - vm_compute. reflexivity.
  - vm_compute. reflexivity.
  - reflexivity.
Defined.

(** Whatever a dry run is given, when it completes it has only added
    directories: every file, the history file included, is as it was,
    and no path that was missing holds a file. *)
Lemma run_organize_dry_frame (E : env) (items : list string) (source : path)
    (dest_parent : option path) (by_date : bool) (min_size_kb : Z) (w w' : world) :
  run_organize E items source dest_parent true by_date min_size_kb w = Ok tt w' →
  dirs_added (fs w) (fs w').
Proof.
  intros Hrun. unfold run_organize, bind at 1, get_fs in Hrun.
  destruct (path_is_dir (fs w) source); [|done].
  change (negb true) with false in Hrun. cbv beta iota in Hrun. unfold bind in Hrun.
  destruct (organize_items _ _ _ _ _ _ _ _ _) as [moves w1|] eqn:Hloop; [|done].
  rewrite logger_info_Ok in Hrun. injection Hrun as <-. cbn [fs].
  by eapply organize_items_dry_frame.
Qed.

(** C2. The failing input of the claim: a dry run over a desktop that
    has no category folder yet completes, leaves the two files where
    they are and writes no history file, but it has created the folders
    [Images] and [Documents]: [mkdir] is called before [dry_run] is
    tested. What does hold of every dry run is [run_organize_dry_frame]:
    it only adds directories. *)
Theorem dry_run_creates_folders :
  let r := run_organize E0 ["photo.png"; "notes.txt"] src0 None true false 0 w_fresh in
  succeeded r = true ∧
  fs w_fresh !! child src0 "Images" = None ∧
  fs (final_world r) !! child src0 "Images" = Some Dir ∧
  fs w_fresh !! child src0 "Documents" = None ∧
  fs (final_world r) !! child src0 "Documents" = Some Dir ∧
  fs (final_world r) !! child src0 "photo.png" = fs w_fresh !! child src0 "photo.png" ∧
  fs (final_world r) !! hist0 = None.
Proof. vm_compute. repeat split; reflexivity. Qed.

(** C3. The failing input of the claim: on a desktop organized once,
    the next live run treats the history file as any regular file: it is
    moved to [Other], the move is recorded, and the history file written
    at the end holds this run alone, the record of the first run having
    left with the moved file. The test on [METADATA_FILE] of line 99 is
    reached for directories only. Directories are skipped for every
    input ([organize_item_dir]). *)
Theorem history_file_is_moved :
  let r := run_organize E0 ["Images"; METADATA_FILE] src0 None false false 0 w_organized in
  let moved := child (child src0 "Other") METADATA_FILE in
  succeeded r = true ∧
  fs w_organized !! hist0 = Some (File first_history) ∧
  fs (final_world r) !! moved = Some (File first_history) ∧
  fs (final_world r) !! hist0 =
    Some (written E0 (Json (JArr [history_of E0 [move_record hist0 moved]]))) ∧
  log (final_world r) =
    [(INFO, MsgMoved METADATA_FILE moved); (INFO, MsgSavedHistory hist0)].
Proof. vm_compute. repeat split; reflexivity. Qed.

(** ** Undo replays the last run backwards *)

Lemma replays_undo_moves (ms : list json) (w w' : world) :
  replays ms w w' → undo_moves ms w = Ok tt w'.
Proof.
  induction 1 as [w|kv a b ms w w' Ha Hb Hnone _ IH
                   |kv a b ms w w' f m1 Ha Hb Hfile Hmk Hpar Hnd _ IH].
  - reflexivity.
  - simpl. unfold bind. by rewrite (undo_move_missing kv a b w Ha Hb Hnone).
  - simpl. unfold bind.
    by rewrite (undo_move_file kv a b w f m1 Ha Hb Hfile Hmk Hpar Hnd).
Qed.

Lemma replays_keeps_dirs (ms : list json) (w w' : world) :
  replays ms w w' → ∀ q, fs w !! q = Some Dir → fs w' !! q = Some Dir.
Proof.
  induction 1 as [w|kv a b ms w w' Ha Hb Hnone _ IH
                   |kv a b ms w w' f m1 Ha Hb Hfile Hmk Hpar Hnd _ IH]; intros q Hq.
  - done.
  - by apply IH.
  - apply IH. cbn [fs].
    assert (m1 !! q = Some Dir) as Hq1.
    { eapply dirs_added_Some; [by eapply mkdir_from_added|done]. }
    rewrite lookup_insert_ne.
    + rewrite lookup_delete_ne; [done|]. intros <-.
      apply (dirs_added_Some _ m1) in Hfile; [congruence|by eapply mkdir_from_added].
    + intros <-. unfold path_is_dir in Hnd. by rewrite Hq1 in Hnd.
Qed.

Lemma last_snoc_cons {A} (l : list A) (x : A) : ∃ y l', l ++ [x] = y :: l'.
Proof. destruct l as [|y l]; [by exists x, []|by exists y, (l ++ [x])]. Qed.



(** ** Path texts read back: [Path (str p) = p] *)

Lemma no_slash_app (a b : string) : no_slash (a +:+ b) = no_slash a && no_slash b.
Proof.
  induction a as [|c a IH]; [done|]. rewrite string_app_cons. simpl.
  rewrite IH. by rewrite andb_assoc.
Qed.

Lemma no_slash_substring (s : string) (i n : nat) :
  no_slash s = true → no_slash (substring i n s) = true.
Proof.
  revert i n. induction s as [|c s IH]; intros i n Hs.
  - by destruct i, n.
  - simpl in Hs. apply andb_true_iff in Hs as [Hc Hs].
    destruct i as [|i]; [destruct n as [|n]|]; simpl; [done| |by apply IH].
    rewrite Hc. by apply IH.
Qed.

Lemma no_slash_digits (d : Decimal.uint) : no_slash (NilEmpty.string_of_uint d) = true.
Proof. induction d; simpl; done. Qed.

Lemma no_slash_str_of_nat (n : nat) : no_slash (str_of_nat n) = true.
Proof. apply no_slash_digits. Qed.

Lemma str_of_nat_head (n : nat) :
  ∃ c r, str_of_nat n = String c r ∧ is_digit c = true.
Proof.
  unfold str_of_nat. destruct (Nat.to_uint n) as [|d|d|d|d|d|d|d|d|d|d] eqn:Hn;
    simpl; try by eexists _, _.
  exfalso. pose proof (Unsigned.of_to n) as Hof. rewrite Hn in Hof.
  simpl in Hof. subst n. discriminate Hn.
Qed.

Lemma valid_name_spec (c : string) :
  valid_name c = true ↔ c ≠ "" ∧ c ≠ "." ∧ no_slash c = true.
Proof.
  unfold valid_name. rewrite andb_true_iff, negb_true_iff, orb_false_iff.
  rewrite !String.eqb_neq. tauto.
Qed.

Lemma split_not_nil (sep : ascii) (s : string) : split sep s ≠ [].
Proof.
  induction s as [|c s IH]; simpl; [done|].
  destruct (Ascii.eqb c sep); [done|]. by destruct (split sep s).
Qed.

Lemma split_app (c r : string) :
  no_slash c = true →
  split "/" (c +:+ r) = (c +:+ hd "" (split "/" r)) :: tl (split "/" r).
Proof.
  induction c as [|a c IH]; intros Hc.
  - pose proof (split_not_nil "/" r). rewrite !string_app_nil_l.
    by destruct (split "/" r).
  - simpl in Hc. apply andb_true_iff in Hc as [Ha Hc]. apply negb_true_iff in Ha.
    rewrite string_app_cons. simpl. rewrite Ha, (IH Hc). by rewrite string_app_cons.
Qed.

Lemma str_cons (c : string) (p : path) :
  str (c :: p) = String "/" (c +:+ match p with [] => "" | _ => str p end).
Proof.
  unfold str. destruct p as [|c' p]; simpl.
  - by rewrite string_app_nil_r.
  - reflexivity.
Qed.

Lemma split_str (p : path) :
  Forall (fun c => valid_name c = true) p → p ≠ [] → split "/" (str p) = "" :: p.
Proof.
  induction p as [|c p IH]; intros Hp Hne; [done|].
  apply Forall_cons in Hp as [Hc Hp].
  apply valid_name_spec in Hc as (_ & _ & Hc).
  rewrite str_cons. simpl. f_equal.
  rewrite (split_app c _ Hc). destruct p as [|c' p].
  - simpl. by rewrite string_app_nil_r.
  - rewrite IH by done. simpl. by rewrite string_app_nil_r.
Qed.

Lemma filter_valid (p : path) :
  Forall (fun c => valid_name c = true) p →
  List.filter (fun c => negb (String.eqb c "" || String.eqb c ".")) p = p.
Proof.
  induction 1 as [|c p Hc _ IH]; simpl; [done|].
  unfold valid_name in Hc. apply andb_true_iff in Hc as [-> _]. by rewrite IH.
Qed.

(** The text of a path whose components are valid names reads back as
    the path. *)
Lemma Path_str (p : path) :
  Forall (fun c => valid_name c = true) p → Path (str p) = p.
Proof.
  intros Hp. unfold Path. destruct p as [|c p]; [done|].
  rewrite split_str by done.
  change (List.filter (fun c => negb (String.eqb c "" || String.eqb c ".")) (c :: p)
          = c :: p).
  by apply filter_valid.
Qed.

(** ** The names that the program makes are valid *)

Lemma valid_numbered (name : string) (k : nat) :
  valid_name name = true →
  valid_name (stem name +:+ "_" +:+ str_of_nat k +:+ suffix name) = true.
Proof.
  intros (_ & _ & Hs)%valid_name_spec. apply valid_name_spec.
  split; [|split].
  - destruct (stem name); discriminate.
  - destruct (stem name) as [|c [|c' s]]; discriminate.
  - rewrite !no_slash_app, no_slash_str_of_nat.
    unfold stem, suffix. destruct (dot_index name).
    + by rewrite !no_slash_substring.
    + by rewrite Hs.
Qed.

Lemma valid_folder (ext : string) : valid_name (folder_name_of (which_category ext)) = true.
Proof.
  unfold which_category.
  destruct (first_category CATEGORIES (lower ext)) as [c|] eqn:Hc; [|done].
  apply first_category_name in Hc. simpl in Hc.
  rewrite !elem_of_cons, elem_of_nil in Hc.
  repeat (destruct Hc as [->|Hc]; [done|]). done.
Qed.

Lemma valid_month_folder (y mo : nat) :
  valid_name (str_of_nat y +:+ "-" +:+ pad2 mo) = true.
Proof.
  apply valid_name_spec. destruct (str_of_nat_head y) as (c & r & Hy & Hc).
  split; [|split].
  - by rewrite Hy.
  - rewrite Hy, string_app_cons. intros [= -> _]. discriminate Hc.
  - rewrite !no_slash_app, no_slash_str_of_nat. simpl. unfold pad2.
    destruct (mo <? 10)%nat; rewrite ?no_slash_app, no_slash_str_of_nat; done.
Qed.

Lemma valid_child (p : path) (c : string) :
  Forall (fun c => valid_name c = true) p → valid_name c = true →
  Forall (fun c => valid_name c = true) (child p c).
Proof. intros Hp Hc. apply Forall_app. split; [done|]. by constructor. Qed.

Lemma valid_target_dir (E : env) (dest_parent : path) (by_date : bool)
    (name : string) (st : file) :
  Forall (fun c => valid_name c = true) dest_parent →
  Forall (fun c => valid_name c = true) (target_dir E dest_parent by_date name st).
Proof.
  intros Hd. unfold target_dir. destruct by_date.
  - apply valid_child; [|apply valid_month_folder].
    apply valid_child; [done|apply valid_folder].
  - apply valid_child; [done|apply valid_folder].
Qed.

Lemma valid_candidate (p : path) (name : string) (j : nat) :
  Forall (fun c => valid_name c = true) p → valid_name name = true →
  Forall (fun c => valid_name c = true) (candidate (child p name) j).
Proof.
  intros Hp Hn. destruct j as [|j]; simpl.
  - by apply valid_child.
  - unfold numbered, with_name. rewrite parent_child, name_of_child.
    apply valid_child; [done|]. by apply valid_numbered.
Qed.

(** ** No numbered name is the name of the history file *)

Lemma underscore_digit_numbered (a d b : string) :
  starts_with_digit d = true → underscore_digit (a +:+ "_" +:+ d +:+ b) = true.
Proof.
  intros Hd. induction a as [|c a IH].
  - destruct d as [|x d]; [done|]. simpl in Hd.
    change ("" +:+ "_" +:+ String x d +:+ b) with (String "_" (String x (d +:+ b))).
    simpl. by rewrite Hd.
  - rewrite string_app_cons. simpl. rewrite IH. apply orb_true_r.
Qed.

Lemma numbered_not_history (name : string) (k : nat) :
  stem name +:+ "_" +:+ str_of_nat k +:+ suffix name ≠ METADATA_FILE.
Proof.
  intros Heq. destruct (str_of_nat_head k) as (c & r & Hk & Hc).
  assert (underscore_digit METADATA_FILE = true) as Hbad; [|discriminate Hbad].
  rewrite <- Heq. apply underscore_digit_numbered. by rewrite Hk.
Qed.

(** ** Undoing what the loop did *)

Lemma undo_moves_app (l1 l2 : list json) (w : world) :
  undo_moves (l1 ++ l2) w =
    match undo_moves l1 w with
    | Ok _ w' => undo_moves l2 w'
    | Raise e w' => Raise e w'
    end.
Proof.
  revert w. induction l1 as [|m l1 IH]; intros w; [done|].
  simpl. unfold bind. destruct (undo_move m w) as [[] w'|e w']; [apply IH|done].
Qed.

Lemma dirs_along_mono (base rest : path) (m m' : gmap path node) :
  (∀ q, m !! q = Some Dir → m' !! q = Some Dir) →
  dirs_along base rest m → dirs_along base rest m'.
Proof.
  intros Hmono. revert base. induction rest as [|c rest IH]; intros base; simpl; [done|].
  intros [Hc Hr]. split; [by apply Hmono|by apply IH].
Qed.

Section RoundTrip.

Variable E : env.
Variables (source dest_parent : path) (by_date : bool) (min_size_kb : Z).

Lemma final_not_history (name : string) (st g : file) (j : nat) (m1 : gmap path node) :
  m1 !! child source name = Some (File g) →
  m1 !! candidate (child (target_dir E dest_parent by_date name st) name) j = None →
  candidate (child (target_dir E dest_parent by_date name st) name) j ≠ child source METADATA_FILE.
Proof.
  intros Hitem Hfree Heq. destruct j as [|j]; simpl in *.
  - apply child_inj in Heq as [Hdir ->]. rewrite Hdir in Hfree. congruence.
  - unfold numbered, with_name in Heq. rewrite parent_child, name_of_child in Heq.
    apply child_inj in Heq as [_ Heq]. by apply numbered_not_history in Heq.
Qed.

(** The record of one moved file, undone in a world that is the world
    after the move up to added directories and the history file. *)
Lemma undo_one (name : string) (st : file) (m1 : gmap path node) (j : nat) (w v : world) :
  let item := child source name in
  let final := candidate (child (target_dir E dest_parent by_date name st) name) j in
  Forall (fun c => valid_name c = true) source →
  Forall (fun c => valid_name c = true) dest_parent →
  valid_name name = true →
  fs w !! item = Some (File st) →
  mkdir_from [] (target_dir E dest_parent by_date name st) (fs w) = inr m1 →
  m1 !! final = None →
  same_but (child source METADATA_FILE) (<[final := File st]> (delete item m1)) (fs v) →
  dirs_along [] source (fs v) →
  fs v !! source = Some Dir →
  fs v !! item ≠ Some Dir →
  ∃ v', undo_move (move_record item final) v = Ok tt v' ∧
        same_but (child source METADATA_FILE) (fs w) (fs v') ∧
        ∀ q, fs v' !! q = Some Dir ↔ fs v !! q = Some Dir.
Proof.
  intros item final Hvs Hvd Hvn Hitem Hmk Hfree Hsame Hdirs Hsrc Hnd.
  pose proof (mkdir_from_added _ _ _ _ Hmk) as Hadd.
  assert (m1 !! item = Some (File st)) as Hitem1 by (by eapply dirs_added_Some).
  assert (final ≠ child source METADATA_FILE) as Hfh by (by eapply final_not_history).
  assert (final ≠ item) as Hfi by congruence.
  assert (fs v !! final = Some (File st)) as Hvf.
  { destruct (Hsame final Hfh) as [Hl|[Hl _]]; rewrite lookup_insert_eq in Hl; congruence. }
  assert (Path (str item) = item) as Hpi.
  { apply Path_str. by apply valid_child. }
  assert (Path (str final) = final) as Hpf.
  { apply Path_str. apply valid_candidate; [|done]. by apply valid_target_dir. }
  pose proof (undo_move_file [("from", JStr (str item)); ("to", JStr (str final))]
                (str final) (str item) v st (fs v) eq_refl eq_refl) as Hundo.
  rewrite Hpi, Hpf in Hundo.
  assert (parent item = source) as Hps by apply parent_child.
  rewrite Hps in Hundo.
  eexists. split; [|split].
  - apply Hundo.
    + done.
    + by apply mkdir_from_noop.
    + unfold path_is_dir. by rewrite Hsrc.
    + unfold path_is_dir. by destruct (fs v !! item) as [[|?]|].
  - intros q Hq. cbn [fs]. destruct (decide (q = item)) as [->|Hqi].
    { left. rewrite lookup_insert_eq. done. }
    rewrite lookup_insert_ne by done. destruct (decide (q = final)) as [->|Hqf].
    { left. rewrite lookup_delete_eq. symmetry. by eapply dirs_added_None. }
    rewrite lookup_delete_ne by done.
    specialize (Hsame q Hq). rewrite lookup_insert_ne, lookup_delete_ne in Hsame by done.
    destruct (Hadd q) as [Ha|[Ha Ha']], Hsame as [Hs|[Hs Hs']].
    + left. congruence.
    + right. split; congruence.
    + right. split; congruence.
    + congruence.
  - intros q. cbn [fs]. destruct (decide (q = item)) as [->|Hqi].
    { rewrite lookup_insert_eq. split; [done|]. intros H. by destruct Hnd. }
    rewrite lookup_insert_ne by done. destruct (decide (q = final)) as [->|Hqf].
    { rewrite lookup_delete_eq, Hvf. split; done. }
    by rewrite lookup_delete_ne.
Qed.

(** The records appended by the loop, undone last first, bring back the
    world in which the loop started, up to added directories and the
    history file. *)
Lemma undo_organize_items (items : list string) (moves0 moves : list json) (w w1 : world) :
  organize_items E source dest_parent false by_date min_size_kb items moves0 w
  = Ok moves w1 →
  Forall (fun c => valid_name c = true) source →
  Forall (fun c => valid_name c = true) dest_parent →
  Forall (fun c => valid_name c = true) items →
  ∃ new, moves = moves0 ++ new ∧
    ∀ v, same_but (child source METADATA_FILE) (fs w1) (fs v) →
         dirs_along [] source (fs v) →
         fs v !! source = Some Dir →
         (∀ name, name ∈ items → fs v !! child source name = Some Dir →
                  fs w !! child source name = Some Dir) →
         ∃ v', undo_moves (rev new) v = Ok tt v' ∧
               same_but (child source METADATA_FILE) (fs w) (fs v') ∧
               ∀ q, fs v' !! q = Some Dir ↔ fs v !! q = Some Dir.
Proof.
  intros Hrun Hvs Hvd. revert moves0 w Hrun.
  induction items as [|name items IH]; intros moves0 w Hrun Hvi.
  - injection Hrun as <- <-. exists []. split; [by rewrite app_nil_r|].
    intros v Hsame _ _ _. exists v. by split.
  - apply Forall_cons in Hvi as [Hvn Hvi].
    rewrite organize_items_cons in Hrun.
    destruct (organize_item E source dest_parent false by_date min_size_kb name moves0 w)
      as [moves1 w'|] eqn:Hitem; [|done].
    destruct (IH _ _ Hrun Hvi) as (new' & -> & Hundo).
    apply organize_item_live_inv in Hitem
      as [[-> ->]|(st & m1 & j & Hfile & Hmk & Hfree & -> & ->)].
    { exists new'. split; [done|]. intros v Hsame Hdirs Hsrc Hnodir.
      apply Hundo; try done. intros n Hn. apply Hnodir. by right. }
    exists (move_record (child source name)
              (candidate (child (target_dir E dest_parent by_date name st) name) j) :: new').
    split; [by rewrite <- app_assoc|].
    intros v Hsame Hdirs Hsrc Hnodir.
    pose proof (mkdir_from_added _ _ _ _ Hmk) as Hadd.
    destruct (Hundo v Hsame Hdirs Hsrc) as (v1 & Hv1 & Hsame1 & Hiff1).
    { intros n Hn Hd. cbn [fs].
      assert (m1 !! child source n = Some Dir) as Hd1.
      { eapply dirs_added_Some; [done|]. apply Hnodir; [by right|done]. }
      rewrite lookup_insert_ne by congruence.
      rewrite lookup_delete_ne; [done|]. intros Heq. rewrite <- Heq in Hd1.
      apply (dirs_added_Some _ m1) in Hfile; [congruence|done]. }
    destruct (undo_one name st m1 j w v1) as (v' & Hv' & Hsame' & Hiff'); try done.
    { eapply dirs_along_mono; [|exact Hdirs]. intros q. apply Hiff1. }
    { by apply Hiff1. }
    { intros Hd. apply Hiff1 in Hd. apply Hnodir in Hd; [congruence|left]. }
    exists v'. split; [|split; [done|]].
    + simpl rev. rewrite undo_moves_app, Hv1. simpl. unfold bind. by rewrite Hv'.
    + intros q. by rewrite Hiff', Hiff1.
Qed.

End RoundTrip.

(** ** A live run, then undo *)

Section RunThenUndo.

Variable E : env.

Lemma write_text_inv (p : path) (c : content) (w w' : world) :
  write_text E p c w = Ok tt w' →
  fs w !! p ≠ Some Dir ∧ path_is_dir (fs w) (parent p) = true ∧
  w' = World (<[p := written E c]> (fs w)) (log w).
Proof.
  unfold write_text. intros H.
  destruct (fs w !! p) as [[|g]|] eqn:Hp; [done| |];
    destruct (path_is_dir (fs w) (parent p)); try done;
    injection H as <-; by repeat split.
Qed.

(** [save_history] comes down to one write: the records found, then the
    record of the run. *)
Lemma save_history_shape (hp : path) (moves : list json) (w : world) :
  ∃ prior : list json,
    save_history E hp moves w =
      bind (write_text E hp (dumps (JArr (prior ++ [history_of E moves]))))
           (fun _ => logger_info (MsgSavedHistory hp)) w.
Proof.
  unfold save_history, bind at 1 2, get_fs.
  destruct (fs w !! hp) as [[|f]|] eqn:Hp.
  - exists []. assert (path_exists (fs w) hp = true) as ->.
    { apply path_exists_true. by rewrite Hp. }
    unfold bind at 1, try_except, bind at 1, read_text. by rewrite Hp.
  - exists (match loads (data f) with Some o => as_history o | None => [] end).
    assert (path_exists (fs w) hp = true) as ->.
    { apply path_exists_true. by rewrite Hp. }
    unfold bind at 1. rewrite (read_history_file hp w f Hp).
    destruct (loads (data f)) as [o|]; [|done]. by destruct o.
  - exists []. by assert (path_exists (fs w) hp = false) as ->
      by (by apply path_exists_false).
Qed.

Lemma save_history_inv (hp : path) (moves : list json) (w w' : world) :
  save_history E hp moves w = Ok tt w' →
  ∃ prior : list json,
    fs w !! hp ≠ Some Dir ∧ path_is_dir (fs w) (parent hp) = true ∧
    w' = World (<[hp := written E (Json (JArr (prior ++ [history_of E moves])))]> (fs w))
               (log w ++ [(INFO, MsgSavedHistory hp)]).
Proof.
  destruct (save_history_shape hp moves w) as [prior ->]. intros H.
  unfold bind in H.
  destruct (write_text E hp _ w) as [[] w1|] eqn:Hw; [|done].
  apply write_text_inv in Hw as (Hnd & Hpar & ->).
  rewrite logger_info_Ok in H. injection H as <-. by exists prior.
Qed.

Lemma run_organize_live_inv (items : list string) (source : path)
    (dest_parent : option path) (by_date : bool) (min_size_kb : Z) (w w2 : world) :
  run_organize E items source dest_parent false by_date min_size_kb w = Ok tt w2 →
  fs w !! source = Some Dir ∧
  ∃ moves w1,
    organize_items E source (default source dest_parent) false by_date min_size_kb
      items [] w = Ok moves w1 ∧
    save_history E (child source METADATA_FILE) moves w1 = Ok tt w2.
Proof.
  intros Hrun.
  assert (fs w !! source = Some Dir) as Hsrc.
  { unfold run_organize, bind at 1, get_fs, path_is_dir in Hrun.
    by destruct (fs w !! source) as [[|g]|]. }
  split; [done|]. rewrite run_organize_unfold in Hrun by done.
  destruct (organize_items _ _ _ _ _ _ _ _ _) as [moves w1|]; [|done].
  by exists moves, w1.
Qed.

Lemma run_undo_list (source : path) (w : world) (f : file) (earlier : list json)
    (last : list (string * json)) (moves : list json) :
  fs w !! child source METADATA_FILE = Some (File f) →
  data f = Json (JArr (earlier ++ [JObj last])) →
  default (JArr []) (assoc "moves" last) = JArr moves →
  run_undo E source w =
    bind (undo_moves (rev moves))
      (fun _ => bind (write_text E (child source METADATA_FILE) (dumps (JArr earlier)))
         (fun _ => logger_info MsgUndoComplete)) w.
Proof.
  intros Hfile Hdata Hmoves.
  rewrite (run_undo_read E source w f Hfile), Hdata. simpl loads.
  destruct (last_snoc_cons earlier (JObj last)) as (y & l' & Heq).
  rewrite Heq. rewrite <- Heq. clear y l' Heq.
  rewrite last_last, removelast_last.
  unfold bind, dict_get, ret. by rewrite Hmoves.
Qed.

(** C1, amended. Take a live run that completes, in a file system where
    the source folder and its ancestors are directories and the names
    involved are names of directory entries, and suppose that the run
    has left no directory at the path of a listed entry that was not
    one. Then [run_undo] completes and the file system is as before the
    run up to directories that have been added and to the history file:
    every listed entry other than the history file, so every file that
    the run moved, is at its path as it was. The history file written
    by the run ends with the record of the run, and after the undo it
    holds the records that came before it. *)
Theorem live_run_then_undo (items : list string) (source : path)
    (dest_parent : option path) (by_date : bool) (min_size_kb : Z) (w w2 : world) :
  Forall (fun c => valid_name c = true) source →
  Forall (fun c => valid_name c = true) (default source dest_parent) →
  Forall (fun c => valid_name c = true) items →
  dirs_along [] source (fs w) →
  run_organize E items source dest_parent false by_date min_size_kb w = Ok tt w2 →
  (∀ name, name ∈ items → fs w2 !! child source name = Some Dir →
           fs w !! child source name = Some Dir) →
  ∃ (w4 : world) (moves prior : list json),
    run_undo E source w2 = Ok tt w4 ∧
    same_but (child source METADATA_FILE) (fs w) (fs w4) ∧
    (∀ name, name ∈ items → name ≠ METADATA_FILE →
             fs w4 !! child source name = fs w !! child source name) ∧
    fs w2 !! child source METADATA_FILE =
      Some (written E (Json (JArr (prior ++ [history_of E moves])))) ∧
    fs w4 !! child source METADATA_FILE = Some (written E (Json (JArr prior))).
Proof.
  intros Hvs Hvd Hvi Hdirs Hrun Hnodir.
  apply run_organize_live_inv in Hrun as (Hsrc & moves & w1 & Hloop & Hsave).
  apply save_history_inv in Hsave as (prior & Hnd & Hpar & ->).
  set (hp := child source METADATA_FILE) in *.
  destruct (organize_items_live_frame E _ _ _ _ _ _ _ _ _ Hloop) as (Hkeep & _).
  destruct (undo_organize_items E _ _ _ _ _ _ _ _ _ Hloop Hvs Hvd Hvi)
    as (new & Hnew & Hundo). simpl in Hnew. subst new.
  set (w2 := World (<[hp := written E (Json (JArr (prior ++ [history_of E moves])))]> (fs w1))
                   (log w1 ++ [(INFO, MsgSavedHistory hp)])) in *.
  assert (∀ q, fs w1 !! q = Some Dir → fs w2 !! q = Some Dir) as Hkeep2.
  { intros q Hq. unfold w2. cbn [fs]. rewrite lookup_insert_ne; [done|]. congruence. }
  destruct (Hundo w2) as (v' & Hv' & Hsame & Hiff).
  { intros q Hq. left. unfold w2. cbn [fs]. by rewrite lookup_insert_ne. }
  { eapply dirs_along_mono; [|exact Hdirs]. intros q Hq. by apply Hkeep2, Hkeep. }
  { by apply Hkeep2, Hkeep. }
  { done. }
  assert (fs w2 !! hp = Some (written E (Json (JArr (prior ++ [history_of E moves])))))
    as Hhist by (unfold w2; cbn [fs]; by rewrite lookup_insert_eq).
  exists (World (<[hp := written E (Json (JArr prior))]> (fs v'))
                (log v' ++ [(INFO, MsgUndoComplete)])), moves, prior.
  split; [|split; [|split; [|split]]].
  - rewrite (run_undo_list source w2 _ prior
               [("timestamp", JStr (utcnow_iso E)); ("moves", JArr moves)] moves Hhist);
      [|done|done].
    unfold bind. rewrite Hv'. fold hp.
    rewrite (write_text_Ok E hp _ v').
    + by rewrite logger_info_Ok.
    + intros Hd. apply Hiff in Hd. rewrite Hhist in Hd. discriminate Hd.
    + unfold hp. rewrite parent_child. unfold path_is_dir.
      by rewrite (proj2 (Hiff source) (Hkeep2 _ (Hkeep _ Hsrc))).
  - intros q Hq. cbn [fs]. rewrite lookup_insert_ne by done. by apply Hsame.
  - intros name Hin Hne. cbn [fs].
    assert (child source name ≠ hp) as Hq.
    { intros [_ ?]%child_inj. done. }
    rewrite lookup_insert_ne by done.
    destruct (Hsame _ Hq) as [Hl|[Hnone Hd]]; [done|].
    apply Hiff in Hd. apply Hnodir in Hd; [congruence|done].
  - done.
  - cbn [fs]. by rewrite lookup_insert_eq.
Qed.

End RunThenUndo.

Lemma succeeded_Ok (r : result unit) : succeeded r = true → r = Ok tt (final_world r).
Proof. by destruct r as [[] w|e w]. Qed.

Lemma live_run_then_undo_witness :
  ∃ w4 : world,
    run_undo E0 src0
      (final_world (run_organize E0 ["photo.png"; "notes.txt"] src0 None false false 0
                      w_fresh)) = Ok tt w4 ∧
    fs w4 !! child src0 "photo.png" = Some (plain 51200 "P") ∧
    fs w4 !! child src0 "notes.txt" = Some (plain 10240 "N") ∧
    fs w4 !! hist0 = Some (written E0 (Json (JArr []))).
Proof.
  destruct (live_run_then_undo E0 ["photo.png"; "notes.txt"] src0 None false 0 w_fresh
              (final_world (run_organize E0 ["photo.png"; "notes.txt"] src0 None
                              false false 0 w_fresh)))
    as (w4 & moves & prior & Hundo & _ & Hback & Hw2 & Hw4).
  - repeat constructor.
  - repeat constructor.
  - repeat constructor.
  - vm_compute. repeat split; reflexivity.
  - apply succeeded_Ok. vm_compute. reflexivity.
  - intros name Hin. rewrite !elem_of_cons, elem_of_nil in Hin.
    destruct Hin as [->|[->|[]]]; vm_compute; intros H; discriminate H.
  - exists w4. split; [exact Hundo|].
    assert (prior = []) as ->.
    { vm_compute in Hw2. injection Hw2 as Hw2. by destruct prior as [|? [|? ?]]. }
    split; [|split; [|exact Hw4]].
    + rewrite (Hback "photo.png"); [vm_compute; reflexivity| |discriminate].
      left.
    + rewrite (Hback "notes.txt"); [vm_compute; reflexivity| |discriminate].
      right. left.
Defined.

(** C1, as stated, fails: with a file named [Images] listed before a
    picture, the run moves the file to [Other] and then creates the
    folder [Images] for the picture; undo puts the picture back, finds a
    directory at the source path of the file and moves the file into
    it, so that the file is not at its source path. *)
Lemma round_trip_fails :
  ¬ round_trip E0 ["Images"; "a.png"] src0 None false 0 w_images.
Proof.
  intros H.
  destruct (H (final_world (run_organize E0 ["Images"; "a.png"] src0 None false false 0
                              w_images))) as (w4 & Hundo & Hback).
  { apply succeeded_Ok. vm_compute. reflexivity. }
  specialize (Hback "Images" (mkFile 5 0 (Text "I"))).
  apply (f_equal final_world) in Hundo. simpl in Hundo. subst w4.
  assert (fs (final_world
                (run_undo E0 src0
                   (final_world (run_organize E0 ["Images"; "a.png"] src0 None false
                                   false 0 w_images)))) !! child src0 "Images" = Some Dir)
    as Hdir by (vm_compute; reflexivity).
  rewrite Hback in Hdir; [discriminate Hdir|left|vm_compute; reflexivity].
Qed.

(** * Further properties of the program *)

(** ** What no run does *)

(** X1. When [source] is not a directory, [run_organize] changes
    nothing, whatever its other arguments: it logs the error and leaves
    with [SystemExit 1] before the listing is looked at. *)
Theorem run_organize_not_a_directory (E : env) (items : list string) (source : path)
    (dest_parent : option path) (dry_run by_date : bool) (min_size_kb : Z) (w : world) :
  fs w !! source ≠ Some Dir →
  run_organize E items source dest_parent dry_run by_date min_size_kb w =
    Raise (SystemExit 1) (World (fs w) (log w ++ [(ERROR, MsgNotADirectory source)])).
Proof.
  intros Hsrc. unfold run_organize, bind at 1, get_fs.
  assert (path_is_dir (fs w) source = false) as ->.
  { unfold path_is_dir. by destruct (fs w !! source) as [[|g]|]. }
  change (negb false) with true. cbv beta iota. unfold bind.
  by rewrite logger_error_Ok.
Qed.

Lemma run_organize_not_a_directory_witness :
  run_organize E0 ["x.txt"] (child src0 "photo.png") None false true 0 w_fresh =
    Raise (SystemExit 1)
      (World (fs w_fresh) [(ERROR, MsgNotADirectory (child src0 "photo.png"))]).
Proof.
  apply (run_organize_not_a_directory E0 ["x.txt"] (child src0 "photo.png") None
           false true 0 w_fresh).
  vm_compute. discriminate.
Defined.

(** X2. A live [safe_move] of a regular file, once the folder of [dest]
    exists or can be created, always completes: its loop finds a path
    that was free. The file is then at that path, in the folder of
    [dest], with the size, time and text it had; it is no longer at
    [src]; and every other entry that existed is still there as it
    was: nothing is overwritten. *)
Theorem safe_move_never_overwrites (w : world) (src dest : path) (f : file)
    (m1 : gmap path node) :
  fs w !! src = Some (File f) →
  mkdir_from [] (parent dest) (fs w) = inr m1 →
  parent dest ≠ [] →
  ∃ (final : path) (w' : world),
    safe_move src dest false w = Ok (Some final) w' ∧
    fs w !! final = None ∧
    parent final = parent dest ∧
    fs w' !! final = Some (File f) ∧
    fs w' !! src = None ∧
    ∀ (q : path) (n : node), q ≠ src → fs w !! q = Some n → fs w' !! q = Some n.
Proof.
  intros Hsrc Hmk Hpar.
  pose proof (mkdir_from_added _ _ _ _ Hmk) as Hadd.
  destruct (safe_move_live w src dest f m1 Hsrc Hmk) as (j & Hrun & Hfree & _).
  { apply dirs_along_is_dir; [by eapply mkdir_from_dirs_along|done]. }
  assert (m1 !! src = Some (File f)) as Hsrc1 by (by eapply dirs_added_Some).
  assert (candidate dest j ≠ src) as Hne by congruence.
  eexists _, _. split; [exact Hrun|]. cbn [fs].
  split; [by eapply dirs_added_None|]. split; [apply parent_candidate|].
  split; [by rewrite lookup_insert_eq|]. split.
  - rewrite lookup_insert_ne by done. by rewrite lookup_delete_eq.
  - intros q n Hq Hn.
    assert (m1 !! q = Some n) as Hn1 by (by eapply dirs_added_Some).
    rewrite lookup_insert_ne by congruence. by rewrite lookup_delete_ne.
Qed.

Lemma safe_move_never_overwrites_witness :
  ∃ (final : path) (w' : world),
    safe_move (child src0 "a.txt") (child (child src0 "Documents") "a.txt") false
      w_collision = Ok (Some final) w' ∧
    fs w' !! final = Some (plain 30 "new") ∧
    fs w' !! child (child src0 "Documents") "a.txt" = Some (plain 10 "old").
Proof.
  destruct (safe_move_never_overwrites w_collision (child src0 "a.txt")
              (child (child src0 "Documents") "a.txt") (mkFile 30 0 (Text "new"))
              (fs w_collision))
    as (final & w' & Hrun & _ & _ & Hfinal & _ & Hkeep).
  - vm_compute. reflexivity.
  - apply mkdir_from_noop. vm_compute. repeat split; reflexivity.
  - vm_compute. discriminate.
  - exists final, w'. split; [exact Hrun|]. split; [exact Hfinal|].
    apply Hkeep; [vm_compute; discriminate|vm_compute; reflexivity].
Defined.

(** X3. A dry run that completes has created, removed and altered no
    file: the regular files of the file system, the history file
    included, are exactly those it had before, each as it was. *)
Theorem dry_run_changes_no_file (E : env) (items : list string) (source : path)
    (dest_parent : option path) (by_date : bool) (min_size_kb : Z) (w w' : world) :
  run_organize E items source dest_parent true by_date min_size_kb w = Ok tt w' →
  ∀ (q : path) (f : file), fs w' !! q = Some (File f) ↔ fs w !! q = Some (File f).
Proof.
  intros Hrun q f. apply run_organize_dry_frame in Hrun.
  split.
  - intros Hq. destruct (Hrun q) as [Heq|[_ Hd]]; congruence.
  - intros Hq. by eapply dirs_added_Some.
Qed.

Lemma dry_run_changes_no_file_witness :
  fs (final_world (run_organize E0 ["photo.png"; "notes.txt"] src0 None true true 0
                     w_fresh)) !! child src0 "photo.png" = Some (plain 51200 "P").
Proof.
  apply (dry_run_changes_no_file E0 ["photo.png"; "notes.txt"] src0 None true 0 w_fresh).
  - apply succeeded_Ok. vm_compute. reflexivity.
  - vm_compute. reflexivity.
Defined.

(** X4. No run that completes, dry or live, removes or replaces a
    directory: every path that was a directory before the run is one
    after it. *)
Theorem run_keeps_directories (E : env) (items : list string) (source : path)
    (dest_parent : option path) (dry_run by_date : bool) (min_size_kb : Z)
    (w w' : world) :
  run_organize E items source dest_parent dry_run by_date min_size_kb w = Ok tt w' →
  ∀ q : path, fs w !! q = Some Dir → fs w' !! q = Some Dir.
Proof.
  intros Hrun q Hq. destruct dry_run.
  - apply run_organize_dry_frame in Hrun. by eapply dirs_added_Some.
  - apply run_organize_live_inv in Hrun as (_ & moves & w1 & Hloop & Hsave).
    apply save_history_inv in Hsave as (prior & Hnd & _ & ->).
    apply organize_items_live_frame in Hloop as [Hkeep _].
    cbn [fs]. rewrite lookup_insert_ne; [by apply Hkeep|].
    intros <-. by apply Hkeep in Hq.
Qed.

Lemma run_keeps_directories_witness :
  fs (final_world (run_organize E0 ["Images"; METADATA_FILE] src0 None false false 0
                     w_organized)) !! child src0 "Images" = Some Dir.
Proof.
  apply (run_keeps_directories E0 ["Images"; METADATA_FILE] src0 None false false 0
           w_organized).
  - apply succeeded_Ok. vm_compute. reflexivity.
  - vm_compute. reflexivity.
Defined.

(** X5. Whatever the history file held before a live run, when the run
    completes the file holds a list: the records that the file stood
    for when the loop ended (none for a missing file or a file that
    does not parse, one for a file holding a single value), followed by
    the record of this run, the object with the time of the run under
    ["timestamp"] and the moves returned by the loop under ["moves"]. *)
Theorem run_writes_list_history (E : env) (items : list string) (source : path)
    (dest_parent : option path) (by_date : bool) (min_size_kb : Z) (w w' : world) :
  run_organize E items source dest_parent false by_date min_size_kb w = Ok tt w' →
  ∃ (moves : list json) (w1 : world),
    organize_items E source (default source dest_parent) false by_date min_size_kb
      items [] w = Ok moves w1 ∧
    fs w' !! child source METADATA_FILE =
      Some (written E (Json (JArr (
              match fs w1 !! child source METADATA_FILE with
              | Some (File f) =>
                  match loads (data f) with
                  | Some (JArr l) => l
                  | Some o => [o]
                  | None => []
                  end
              | _ => []
              end ++
              [JObj [("timestamp", JStr (utcnow_iso E)); ("moves", JArr moves)]])))).
Proof.
  intros Hrun.
  apply run_organize_live_inv in Hrun as (_ & moves & w1 & Hloop & Hsave).
  exists moves, w1. split; [done|].
  destruct (save_history_inv E _ _ _ _ Hsave) as (prior & Hnd & Hpar & _).
  destruct (fs w1 !! child source METADATA_FILE) as [[|f]|] eqn:Hp; [done| |].
  - rewrite (save_history_file E _ moves w1 f Hp Hpar) in Hsave.
    injection Hsave as <-. cbn [fs]. rewrite lookup_insert_eq.
    by destruct (loads (data f)) as [[| | | |l|]|].
  - rewrite (save_history_new E _ moves w1 Hp Hpar) in Hsave.
    injection Hsave as <-. cbn [fs]. by rewrite lookup_insert_eq.
Qed.

Lemma run_writes_list_history_witness :
  fs (final_world (run_organize E0 ["photo.png"; METADATA_FILE] src0 None false false 1
                     w_garbled_photo)) !! hist0 =
    Some (File (mkFile 100 0
      (Json (JArr [JObj [("timestamp", JStr "2026-01-01T00:00:00");
                         ("moves",
                          JArr [JObj [("from", JStr "/home/u/Desktop/photo.png");
                                      ("to", JStr "/home/u/Desktop/Images/photo.png")]])]])))).
Proof.
  destruct (run_writes_list_history E0 ["photo.png"; METADATA_FILE] src0 None false 1
              w_garbled_photo
              (final_world (run_organize E0 ["photo.png"; METADATA_FILE] src0 None
                              false false 1 w_garbled_photo)))
    as (moves & w1 & Hloop & Hfile).
  - apply succeeded_Ok. vm_compute. reflexivity.
  - vm_compute in Hloop. injection Hloop as <- <-.
    etrans; [exact Hfile|]. vm_compute. reflexivity.
Defined.

(** ** What a run does, entry by entry *)

Lemma qualifying_cons (m : gmap path node) (source : path) (min_size_kb : Z)
    (name : string) (items : list string) :
  qualifying m source min_size_kb (name :: items) =
    match qualifies m source min_size_kb name with
    | Some e => e :: qualifying m source min_size_kb items
    | None => qualifying m source min_size_kb items
    end.
Proof. reflexivity. Qed.

Lemma qualifying_ext (m m' : gmap path node) (source : path) (min_size_kb : Z)
    (items : list string) :
  (∀ (n : string) (st : file), n ∈ items →
     m' !! child source n = Some (File st) ↔ m !! child source n = Some (File st)) →
  qualifying m' source min_size_kb items = qualifying m source min_size_kb items.
Proof.
  induction items as [|name items IH]; intros Hext; [done|].
  rewrite !qualifying_cons. rewrite IH.
  - assert (qualifies m' source min_size_kb name = qualifies m source min_size_kb name)
      as ->; [|done].
    unfold qualifies.
    destruct (m' !! child source name) as [[|st']|] eqn:H';
      destruct (m !! child source name) as [[|st]|] eqn:H; try done.
    + apply (Hext name st) in H; [congruence|left].
    + apply (Hext name st') in H'; [congruence|left].
    + apply (Hext name st') in H'; [|left]. by simplify_eq.
    + apply (Hext name st') in H'; [congruence|left].
    + apply (Hext name st) in H; [congruence|left].
  - intros n st Hn. apply Hext. by right.
Qed.

Lemma qualifying_added (m m' : gmap path node) (source : path) (min_size_kb : Z)
    (items : list string) :
  dirs_added m m' →
  qualifying m' source min_size_kb items = qualifying m source min_size_kb items.
Proof.
  intros Hadd. apply qualifying_ext. intros n st _. split.
  - intros H. destruct (Hadd (child source n)) as [Heq|[_ Hd]]; congruence.
  - intros H. by eapply dirs_added_Some.
Qed.

Section Trace.

Variable E : env.
Variables (source dest_parent : path) (by_date : bool) (min_size_kb : Z).

(** What one entry does when it completes, dry or live, told by
    whether the entry qualifies. *)
Lemma organize_item_cases (dry_run : bool) (name : string) (moves moves' : list json)
    (w w1 : world) :
  organize_item E source dest_parent dry_run by_date min_size_kb name moves w
  = Ok moves' w1 →
  (qualifies (fs w) source min_size_kb name = None ∧ moves' = moves ∧ w1 = w) ∨
  ∃ (st : file) (m1 : gmap path node),
    qualifies (fs w) source min_size_kb name = Some (name, st) ∧
    fs w !! child source name = Some (File st) ∧
    mkdir_from [] (target_dir E dest_parent by_date name st) (fs w) = inr m1 ∧
    min_size_kb * 1024 ≤ st_size st.
Proof.
  intros Hrun. unfold qualifies.
  destruct (fs w !! child source name) as [[|st]|] eqn:Hitem.
  - rewrite organize_item_dir in Hrun by done. left. by injection Hrun as <- <-.
  - destruct (decide (st_size st < min_size_kb * 1024)) as [Hsz|Hsz].
    { rewrite (organize_item_small E _ _ _ _ _ _ _ _ st) in Hrun by done.
      apply Z.ltb_lt in Hsz. rewrite Hsz. left. by injection Hrun as <- <-. }
    apply Z.nlt_ge in Hsz.
    destruct (mkdir_from [] (target_dir E dest_parent by_date name st) (fs w))
      as [e|m1] eqn:Hmk.
    { by rewrite (organize_item_mkdir_fails E _ _ _ _ _ _ _ _ st e) in Hrun. }
    right. exists st, m1. apply Z.ltb_ge in Hsz as Hsz'. rewrite Hsz'. by repeat split.
  - by rewrite organize_item_missing in Hrun.
Qed.

(** The preview of a dry run: one record and one logged line for each
    entry that qualifies, in the order of the listing, with the
    candidate destination. *)
Lemma organize_items_dry_trace (items : list string) (moves moves' : list json)
    (w w1 : world) :
  organize_items E source dest_parent true by_date min_size_kb items moves w
  = Ok moves' w1 →
  moves' = moves ++
    map (fun e => dry_record (child source e.1)
                    (child (target_dir E dest_parent by_date e.1 e.2) e.1))
        (qualifying (fs w) source min_size_kb items) ∧
  log w1 = log w ++
    map (fun e => (INFO, MsgDryMove (child source e.1)
                           (child (target_dir E dest_parent by_date e.1 e.2) e.1)))
        (qualifying (fs w) source min_size_kb items).
Proof.
  revert moves w. induction items as [|name items IH]; intros moves w Hrun.
  - injection Hrun as <- <-. by rewrite !app_nil_r.
  - rewrite organize_items_cons in Hrun.
    destruct (organize_item E source dest_parent true by_date min_size_kb name moves w)
      as [moves1 w'|] eqn:Hitem; [|done].
    destruct (IH _ _ Hrun) as [-> Hlog]. rewrite qualifying_cons.
    destruct (organize_item_cases _ _ _ _ _ _ Hitem)
      as [(-> & -> & ->)|(st & m1 & -> & Hfile & Hmk & Hsz)]; [done|].
    rewrite (organize_item_dry E source dest_parent by_date min_size_kb name moves
               w st m1 Hfile Hsz Hmk) in Hitem.
    injection Hitem as <- <-. cbn [fs log] in *.
    rewrite (qualifying_added (fs w) m1) in * by (by eapply mkdir_from_added).
    simpl. rewrite Hlog. by rewrite <- !app_assoc.
Qed.

End Trace.

(** X6. A dry run that completes has logged, after what the log held,
    one "would move" line for each listed regular file of at least the
    minimum size, in the order of the listing and with the candidate
    destination [folder/name], then "Dry-run completed"; directories
    and smaller files give no line. *)
Theorem dry_run_log (E : env) (items : list string) (source : path)
    (dest_parent : option path) (by_date : bool) (min_size_kb : Z) (w w' : world) :
  run_organize E items source dest_parent true by_date min_size_kb w = Ok tt w' →
  log w' = log w ++
    map (fun e => (INFO, MsgDryMove (child source e.1)
                     (child (target_dir E (default source dest_parent) by_date e.1 e.2)
                            e.1)))
        (qualifying (fs w) source min_size_kb items) ++
    [(INFO, MsgDryRunCompleted)].
Proof.
  intros Hrun.
  assert (fs w !! source = Some Dir) as Hsrc.
  { unfold run_organize, bind at 1, get_fs, path_is_dir in Hrun.
    by destruct (fs w !! source) as [[|g]|]. }
  rewrite run_organize_unfold in Hrun by done.
  destruct (organize_items _ _ _ _ _ _ _ _ _) as [moves w1|] eqn:Hloop; [|done].
  rewrite logger_info_Ok in Hrun. injection Hrun as <-. cbn [log].
  apply organize_items_dry_trace in Hloop as [_ ->]. by rewrite <- app_assoc.
Qed.

Lemma dry_run_log_witness :
  log (final_world (run_organize E0 ["Documents"; "a.txt"] src0 None true false 0
                      w_collision)) =
    [(INFO, MsgDryMove (child src0 "a.txt") (child (child src0 "Documents") "a.txt"));
     (INFO, MsgDryRunCompleted)].
Proof.
  apply (dry_run_log E0 ["Documents"; "a.txt"] src0 None false 0 w_collision).
  apply succeeded_Ok. vm_compute. reflexivity.
Defined.

Section LiveTrace.

Variable E : env.
Variables (source dest_parent : path) (by_date : bool) (min_size_kb : Z).

Lemma organize_item_live_cases (name : string) (moves moves' : list json) (w w1 : world) :
  organize_item E source dest_parent false by_date min_size_kb name moves w
  = Ok moves' w1 →
  (qualifies (fs w) source min_size_kb name = None ∧ moves' = moves ∧ w1 = w) ∨
  ∃ (st : file) (m1 : gmap path node) (j : nat),
    let item := child source name in
    let final := candidate (child (target_dir E dest_parent by_date name st) name) j in
    qualifies (fs w) source min_size_kb name = Some (name, st) ∧
    fs w !! item = Some (File st) ∧
    min_size_kb * 1024 ≤ st_size st ∧
    dirs_added (fs w) m1 ∧
    m1 !! final = None ∧
    moves' = moves ++ [move_record item final] ∧
    w1 = World (<[final := File st]> (delete item m1))
               (log w ++ [(INFO, MsgMoved name final)]).
Proof.
  intros Hrun.
  destruct (organize_item_cases _ _ _ _ _ _ _ _ _ _ _ Hrun)
    as [?|(st & m1 & Hq & Hfile & Hmk & Hsz)]; [by left|].
  destruct (organize_item_live E source dest_parent by_date min_size_kb name moves
              w st m1 Hfile Hsz Hmk) as (j & Hlive & Hfree & _).
  rewrite Hlive in Hrun. injection Hrun as <- <-.
  right. exists st, m1, j. repeat split; try done. by eapply mkdir_from_added.
Qed.

(** A live loop leaves alone every regular file that is not a listed
    entry of at least the minimum size. *)
Lemma organize_items_live_others (items : list string) (moves moves' : list json)
    (w w1 : world) (q : path) (f : file) :
  organize_items E source dest_parent false by_date min_size_kb items moves w
  = Ok moves' w1 →
  fs w !! q = Some (File f) →
  (∀ name, name ∈ items → q = child source name → st_size f < min_size_kb * 1024) →
  fs w1 !! q = Some (File f).
Proof.
  revert moves w. induction items as [|name items IH]; intros moves w Hrun Hq Hsmall.
  - by injection Hrun as <- <-.
  - rewrite organize_items_cons in Hrun.
    destruct (organize_item E source dest_parent false by_date min_size_kb name moves w)
      as [moves1 w'|] eqn:Hitem; [|done].
    apply (IH _ _ Hrun); [|intros n Hn; apply Hsmall; by right].
    apply organize_item_live_cases in Hitem
      as [(_ & -> & ->)|(st & m1 & j & _ & Hfile & Hsz & Hadd & Hfree & -> & ->)];
      [done|].
    assert (m1 !! q = Some (File f)) as Hq1 by (by eapply dirs_added_Some).
    cbn [fs]. rewrite lookup_insert_ne by congruence.
    rewrite lookup_delete_ne; [done|]. intros <-.
    assert (st = f) as -> by congruence.
    specialize (Hsmall name ltac:(left) eq_refl). lia.
Qed.

(** The records that a live loop appends and the lines that it logs
    describe the same moves, in the same order. *)
Lemma organize_items_live_trace (items : list string) (moves moves' : list json)
    (w w1 : world) :
  organize_items E source dest_parent false by_date min_size_kb items moves w
  = Ok moves' w1 →
  ∃ l : list (string * path),
    moves' = moves ++ map (fun e => move_record (child source e.1) e.2) l ∧
    log w1 = log w ++ map (fun e => (INFO, MsgMoved e.1 e.2)) l.
Proof.
  revert moves w. induction items as [|name items IH]; intros moves w Hrun.
  - injection Hrun as <- <-. exists []. by rewrite !app_nil_r.
  - rewrite organize_items_cons in Hrun.
    destruct (organize_item E source dest_parent false by_date min_size_kb name moves w)
      as [moves1 w'|] eqn:Hitem; [|done].
    destruct (IH _ _ Hrun) as (l & -> & Hlog).
    apply organize_item_live_cases in Hitem
      as [(_ & -> & ->)|(st & m1 & j & _ & Hfile & Hsz & Hadd & Hfree & -> & ->)].
    { by exists l. }
    exists ((name, candidate (child (target_dir E dest_parent by_date name st) name) j) :: l).
    cbn [log] in Hlog. rewrite Hlog. simpl. by rewrite <- !app_assoc.
Qed.

(** With no folder of the run being [source] itself, no regular file
    appears in [source] during a live loop. *)
Lemma organize_items_live_no_new (items : list string) (moves moves' : list json)
    (w w1 : world) (q : path) (g : file) :
  (∀ name st, target_dir E dest_parent by_date name st ≠ source) →
  organize_items E source dest_parent false by_date min_size_kb items moves w
  = Ok moves' w1 →
  parent q = source →
  fs w1 !! q = Some (File g) →
  fs w !! q = Some (File g).
Proof.
  intros Hts. revert moves w. induction items as [|name items IH]; intros moves w Hrun Hp Hq.
  - by injection Hrun as <- <-.
  - rewrite organize_items_cons in Hrun.
    destruct (organize_item E source dest_parent false by_date min_size_kb name moves w)
      as [moves1 w'|] eqn:Hitem; [|done].
    specialize (IH _ _ Hrun Hp Hq).
    apply organize_item_live_cases in Hitem
      as [(_ & -> & ->)|(st & m1 & j & _ & Hfile & Hsz & Hadd & Hfree & -> & ->)];
      [done|].
    cbn [fs] in IH.
    assert (q ≠ candidate (child (target_dir E dest_parent by_date name st) name) j)
      as Hne.
    { intros ->. rewrite parent_candidate, parent_child in Hp. by apply Hts in Hp. }
    rewrite lookup_insert_ne in IH by done.
    destruct (decide (q = child source name)) as [->|Hqi].
    { by rewrite lookup_delete_eq in IH. }
    rewrite lookup_delete_ne in IH by done.
    destruct (Hadd q) as [Heq|[_ Hd]]; congruence.
Qed.

(** With no folder of the run being [source] itself and no name listed
    twice, a live loop that completes has moved exactly the entries
    that qualified when it started; each is at the end at the path of
    its record, as it was, and no regular file is at its former path. *)
Lemma organize_items_live_exact (items : list string) (moves moves' : list json)
    (w w1 : world) :
  (∀ name st, target_dir E dest_parent by_date name st ≠ source) →
  NoDup items →
  organize_items E source dest_parent false by_date min_size_kb items moves w
  = Ok moves' w1 →
  ∃ l : list (string * file * path),
    moves' = moves ++ map (fun e => move_record (child source e.1.1) e.2) l ∧
    map fst l = qualifying (fs w) source min_size_kb items ∧
    Forall (fun e => fs w1 !! e.2 = Some (File e.1.2) ∧
                     parent e.2 ≠ source ∧
                     ∀ g, fs w1 !! child source e.1.1 ≠ Some (File g)) l.
Proof.
  intros Hts. revert moves w.
  induction items as [|name items IH]; intros moves w Hnd Hrun.
  - injection Hrun as <- <-. exists []. by rewrite app_nil_r.
  - apply NoDup_cons in Hnd as [Hnotin Hnd].
    rewrite organize_items_cons in Hrun.
    destruct (organize_item E source dest_parent false by_date min_size_kb name moves w)
      as [moves1 w'|] eqn:Hitem; [|done].
    destruct (IH _ _ Hnd Hrun) as (l & -> & Hq & Hpost).
    rewrite qualifying_cons.
    apply organize_item_live_cases in Hitem
      as [(-> & -> & ->)|(st & m1 & j & -> & Hfile & Hsz & Hadd & Hfree & -> & ->)].
    { by exists l. }
    set (final := candidate (child (target_dir E dest_parent by_date name st) name) j) in *.
    assert (parent final ≠ source) as Hpf.
    { unfold final. rewrite parent_candidate, parent_child. apply Hts. }
    assert (final ≠ child source name) as Hfi.
    { intros Heq. rewrite Heq, parent_child in Hpf. done. }
    exists ((name, st, final) :: l). split; [|split].
    + simpl. by rewrite <- app_assoc.
    + simpl. f_equal. rewrite Hq. apply qualifying_ext. intros n st' Hn. cbn [fs].
      assert (child source n ≠ final) as Hnf.
      { intros Heq. rewrite <- Heq, parent_child in Hpf. done. }
      assert (child source n ≠ child source name) as Hni.
      { intros [_ ->]%child_inj. done. }
      rewrite lookup_insert_ne, lookup_delete_ne by done.
      split.
      * intros H. destruct (Hadd (child source n)) as [Heq|[_ Hd]]; congruence.
      * intros H. by eapply dirs_added_Some.
    + constructor; [|done]. simpl. split; [|split; [done|]].
      * eapply organize_items_live_others; [exact Hrun| |].
        -- cbn [fs]. by rewrite lookup_insert_eq.
        -- intros n Hn Heq. rewrite Heq, parent_child in Hpf. done.
      * intros g Hg.
        eapply organize_items_live_no_new in Hg; [|done|exact Hrun|apply parent_child].
        cbn [fs] in Hg. rewrite lookup_insert_ne, lookup_delete_eq in Hg by done. done.
Qed.

End LiveTrace.

Lemma target_dir_not_source (E : env) (source : path) (by_date : bool)
    (name : string) (st : file) :
  target_dir E source by_date name st ≠ source.
Proof.
  intros H. apply (f_equal length) in H. unfold target_dir, child in H.
  destruct by_date; rewrite ?length_app in H; simpl in H; lia.
Qed.

(** X7. A live run that completes leaves every regular file that it
    had no reason to move exactly as it was: a file that is not a
    listed entry, wherever it is, and a listed file below the minimum
    size. Only the history file, written at the end, is excepted. *)
Theorem live_run_leaves_other_files (E : env) (items : list string) (source : path)
    (dest_parent : option path) (by_date : bool) (min_size_kb : Z) (w w' : world)
    (q : path) (f : file) :
  run_organize E items source dest_parent false by_date min_size_kb w = Ok tt w' →
  fs w !! q = Some (File f) →
  q ≠ child source METADATA_FILE →
  (∀ name, name ∈ items → q = child source name → st_size f < min_size_kb * 1024) →
  fs w' !! q = Some (File f).
Proof.
  intros Hrun Hq Hne Hsmall.
  apply run_organize_live_inv in Hrun as (_ & moves & w1 & Hloop & Hsave).
  apply save_history_inv in Hsave as (prior & _ & _ & ->).
  cbn [fs]. rewrite lookup_insert_ne by done.
  by eapply organize_items_live_others.
Qed.

Lemma live_run_leaves_other_files_witness :
  fs (final_world (run_organize E0 ["photo.png"; "notes.txt"] src0 None false false 20
                     w_fresh)) !! child src0 "notes.txt" = Some (plain 10240 "N").
Proof.
  apply (live_run_leaves_other_files E0 ["photo.png"; "notes.txt"] src0 None false 20
           w_fresh).
  - apply succeeded_Ok. vm_compute. reflexivity.
  - vm_compute. reflexivity.
  - vm_compute. discriminate.
  - intros name _ _. vm_compute. reflexivity.
Defined.





(** ** Errors and edge cases *)

Lemma mkdir_from_blocked (base pre : path) (c : string) (rest : path)
    (m : gmap path node) (g : file) :
  dirs_along base pre m →
  m !! child (base ++ pre) c = Some (File g) →
  mkdir_from base (pre ++ c :: rest) m =
    inl (match rest with
         | [] => FileExistsError (child (base ++ pre) c)
         | _ => NotADirectoryError (child (base ++ pre) c ++ rest)
         end).
Proof.
  revert base. induction pre as [|d pre IH]; intros base Hdirs Hfile.
  - rewrite app_nil_r in Hfile. rewrite app_nil_r.
    cbn [app mkdir_from]. by rewrite Hfile.
  - destruct Hdirs as [Hd Hdirs]. cbn [app mkdir_from]. rewrite Hd.
    assert (base ++ d :: pre = child base d ++ pre) as Heq.
    { unfold child. by rewrite <- app_assoc. }
    rewrite Heq in *. by apply IH.
Qed.

(** X10. When the loop of a run, dry or live, reaches a listed file
    whose category folder cannot be created because a regular file
    bears its name in the destination folder, it stops there: [mkdir]
    raises [FileExistsError] for the folder or, when a month folder was
    to be created inside, [NotADirectoryError] for the month folder.
    That entry changes nothing, the entries after it are not looked at,
    and the moves recorded so far are not returned. *)
Theorem folder_name_taken_by_file (E : env) (source dest_parent : path)
    (dry_run by_date : bool) (min_size_kb : Z) (name : string) (rest : list string)
    (moves : list json) (w : world) (st g : file) :
  let folder := child dest_parent (folder_name_of (which_category (suffix name))) in
  fs w !! child source name = Some (File st) →
  min_size_kb * 1024 ≤ st_size st →
  dirs_along [] dest_parent (fs w) →
  fs w !! folder = Some (File g) →
  organize_items E source dest_parent dry_run by_date min_size_kb (name :: rest) moves w
  = Raise (if by_date
           then NotADirectoryError (target_dir E dest_parent true name st)
           else FileExistsError folder) w.
Proof.
  intros folder Hfile Hsz Hdirs Hfolder.
  rewrite organize_items_cons.
  rewrite (organize_item_mkdir_fails E source dest_parent by_date min_size_kb dry_run
             name moves w st
             (if by_date
              then NotADirectoryError (target_dir E dest_parent true name st)
              else FileExistsError folder));
    [done..|].
  unfold target_dir, child. destruct by_date.
  - rewrite <- app_assoc. cbn [app].
    rewrite (mkdir_from_blocked [] dest_parent _ _ (fs w) g); [|done..].
    unfold child. by rewrite <- app_assoc.
  - by rewrite (mkdir_from_blocked [] dest_parent _ [] (fs w) g).
Qed.

Lemma folder_name_taken_by_file_witness :
  organize_items E0 src0 src0 false false 0 ["a.png"; "Images"] [] w_images
    = Raise (FileExistsError ["home"; "u"; "Desktop"; "Images"]) w_images ∧
  organize_items E0 src0 src0 true true 0 ["a.png"; "Images"] [] w_images
    = Raise (NotADirectoryError ["home"; "u"; "Desktop"; "Images"; "2024-03"]) w_images.
Proof.
  split.
  - apply (folder_name_taken_by_file E0 src0 src0 false false 0 "a.png" ["Images"] []
             w_images (mkFile 10240 0 (Text "A")) (mkFile 5 0 (Text "I"))).
    + vm_compute. reflexivity.
    + vm_compute. discriminate.
    + vm_compute. repeat split; reflexivity.
    + vm_compute. reflexivity.
  - apply (folder_name_taken_by_file E0 src0 src0 true true 0 "a.png" ["Images"] []
             w_images (mkFile 10240 0 (Text "A")) (mkFile 5 0 (Text "I"))).
    + vm_compute. reflexivity.
    + vm_compute. discriminate.
    + vm_compute. repeat split; reflexivity.
    + vm_compute. reflexivity.
Defined.

(** X11. The record that a run writes for a move is read back by undo
    as the two paths it was made from, when their components are names
    of directory entries: undoing the record of a move from [item] to
    [final] looks for [final] and, when it is there, moves it to
    [item]. *)
Theorem undo_reads_back_record (item final : path) (w : world) :
  Forall (fun c => valid_name c = true) item →
  Forall (fun c => valid_name c = true) final →
  undo_move (move_record item final) w =
    (if path_exists (fs w) final then
       bind (mkdir_parents (parent item))
         (fun _ => bind (shutil_move final item)
            (fun _ => logger_info (MsgRestored (name_of final) item))) w
     else logger_warning (MsgRestoreNotFound final) w).
Proof.
  intros Hi Hf. unfold move_record.
  rewrite (undo_move_unfold [("from", JStr (str item)); ("to", JStr (str final))]
             (str final) (str item) w eq_refl eq_refl).
  by rewrite !Path_str.
Qed.

Lemma undo_reads_back_record_witness :
  undo_move (move_record (child src0 "notes.txt") (child (child src0 "Documents") "notes.txt"))
    w_fresh =
  Ok tt (World (fs w_fresh)
           [(WARNING, MsgRestoreNotFound (child (child src0 "Documents") "notes.txt"))]).
Proof.
  rewrite (undo_reads_back_record (child src0 "notes.txt")
             (child (child src0 "Documents") "notes.txt") w_fresh).
  - vm_compute. reflexivity.
  - repeat constructor.
  - repeat constructor.
Defined.

(** X12. When the move recorded last in the last run of the history
    file is not an object with a text under ["to"] and under ["from"],
    [run_undo] raises before anything is done: [AttributeError] for a
    record that is not an object, [TypeError] otherwise. No file is
    restored, not even for the well-formed moves recorded before it,
    nothing is logged and the history file keeps the record, so that
    the next undo fails in the same way. *)
Theorem undo_stops_on_malformed_record (E : env) (source : path) (w : world)
    (f : file) (earlier : list json) (last : list (string * json))
    (ms : list json) (bad : json) :
  fs w !! child source METADATA_FILE = Some (File f) →
  data f = Json (JArr (earlier ++ [JObj last])) →
  assoc "moves" last = Some (JArr (ms ++ [bad])) →
  well_formed_record bad = false →
  run_undo E source w =
    Raise (match bad with JObj _ => TypeError | _ => AttributeError end) w.
Proof.
  intros Hfile Hdata Hmoves Hbad.
  rewrite (run_undo_list E source w f earlier last (ms ++ [bad]) Hfile Hdata);
    [|by rewrite Hmoves].
  rewrite rev_app_distr. simpl. unfold bind at 1 2.
  assert (undo_move bad w =
            Raise (match bad with JObj _ => TypeError | _ => AttributeError end) w) as ->;
    [|done].
  unfold undo_move, bind, dict_get, Path_of, ret, raise.
  destruct bad as [| | | | |kv]; try done. simpl in Hbad.
  destruct (assoc "to" kv) as [[| | |a| |]|]; try done.
  destruct (assoc "from" kv) as [[| | |b| |]|]; done.
Qed.

Lemma undo_stops_on_malformed_record_witness :
  run_undo E0 src0 w_torn_record = Raise TypeError w_torn_record.
Proof.
  apply (undo_stops_on_malformed_record E0 src0 w_torn_record
           (mkFile 100 0
              (Json (JArr [earlier_run;
                 JObj [("timestamp", JStr "2025-12-31T00:00:00");
                       ("moves", JArr [JObj photo_record;
                                       JObj [("from", JStr "/home/u/Desktop/x")]])]])))
           [earlier_run]
           [("timestamp", JStr "2025-12-31T00:00:00");
            ("moves", JArr [JObj photo_record; JObj [("from", JStr "/home/u/Desktop/x")]])]
           [JObj photo_record] (JObj [("from", JStr "/home/u/Desktop/x")])).
  - vm_compute. reflexivity.
  - reflexivity.
  - reflexivity.
  - reflexivity.
Defined.

(** X13. When the last run of the history file has no ["moves"], or an
    empty list of moves, [run_undo] moves nothing: it takes the record
    out, writes the earlier records back and logs "Undo complete". *)
Theorem undo_run_without_moves (E : env) (source : path) (w : world) (f : file)
    (earlier : list json) (last : list (string * json)) :
  fs w !! child source METADATA_FILE = Some (File f) →
  data f = Json (JArr (earlier ++ [JObj last])) →
  default (JArr []) (assoc "moves" last) = JArr [] →
  fs w !! source = Some Dir →
  run_undo E source w =
    Ok tt (World (<[child source METADATA_FILE := written E (Json (JArr earlier))]> (fs w))
                 (log w ++ [(INFO, MsgUndoComplete)])).
Proof.
  intros Hfile Hdata Hmoves Hsrc.
  rewrite (run_undo_list E source w f earlier last [] Hfile Hdata Hmoves).
  simpl. unfold bind, ret. rewrite (write_text_Ok E _ _ w).
  - by rewrite logger_info_Ok.
  - by rewrite Hfile.
  - rewrite parent_child. unfold path_is_dir. by rewrite Hsrc.
Qed.

Lemma undo_run_without_moves_witness :
  run_undo E0 src0 w_idle_run =
    Ok tt (World (<[hist0 := written E0 (Json (JArr [JObj later_run]))]> (fs w_idle_run))
                 [(INFO, MsgUndoComplete)]).
Proof.
  apply (undo_run_without_moves E0 src0 w_idle_run
           (mkFile 100 0 (Json (JArr [JObj later_run; earlier_run])))
           [JObj later_run]
           [("timestamp", JStr "2025-12-30T00:00:00"); ("moves", JArr [])]).
  - vm_compute. reflexivity.
  - reflexivity.
  - reflexivity.
  - vm_compute. reflexivity.
Defined.

(** X14. When the history file is missing, or parses to anything but a
    non-empty list (an empty list, an object, a number, a text),
    [run_undo] returns normally having logged one error and changed
    nothing; undo can be asked again with the same outcome. *)
Theorem undo_reports_and_changes_nothing (E : env) (source : path) (w : world) :
  (fs w !! child source METADATA_FILE = None ∨
   ∃ (f : file) (j : json),
     fs w !! child source METADATA_FILE = Some (File f) ∧
     loads (data f) = Some j ∧ ∀ x l, j ≠ JArr (x :: l)) →
  ∃ msg : message,
    run_undo E source w = Ok tt (World (fs w) (log w ++ [(ERROR, msg)])) ∧
    run_undo E source (World (fs w) (log w ++ [(ERROR, msg)])) =
      Ok tt (World (fs w) ((log w ++ [(ERROR, msg)]) ++ [(ERROR, msg)])).
Proof.
  intros [Hnone|(f & j & Hfile & Hj & Hno)].
  - exists MsgNoHistory. split; by rewrite run_undo_no_history.
  - exists MsgHistoryCorrupt. split; by rewrite (run_undo_corrupt E source _ f j).
Qed.

Lemma undo_reports_and_changes_nothing_witness :
  ∃ msg : message,
    run_undo E0 src0 w_fresh = Ok tt (World (fs w_fresh) ([] ++ [(ERROR, msg)])) ∧
    run_undo E0 src0 (World (fs w_fresh) ([] ++ [(ERROR, msg)])) =
      Ok tt (World (fs w_fresh) (([] ++ [(ERROR, msg)]) ++ [(ERROR, msg)])).
Proof.
  apply (undo_reports_and_changes_nothing E0 src0 w_fresh).
  left. vm_compute. reflexivity.
Defined.

(** ** The command line entry point *)

(** X15. With [--undo] and no history file in the source folder,
    [main] returns normally, so that the process leaves with status
    zero: the error is logged, nothing is changed, and the listing and
    the other options are not looked at. The source folder need not
    even exist. *)
Theorem main_undo_without_history (E : env) (items : list string) (a : args) (w : world) :
  arg_undo a = true →
  fs w !! child (arg_source a) METADATA_FILE = None →
  main E items a w = Ok tt (World (fs w) (log w ++ [(ERROR, MsgNoHistory)])).
Proof.
  intros Hundo Hnone. unfold main. rewrite Hundo.
  by apply run_undo_no_history.
Qed.

Lemma main_undo_without_history_witness :
  main E0 ["photo.png"] (Args (child src0 "nowhere") None true true false 0) w_fresh =
    Ok tt (World (fs w_fresh) [(ERROR, MsgNoHistory)]).
Proof.
  apply (main_undo_without_history E0 ["photo.png"]
           (Args (child src0 "nowhere") None true true false 0) w_fresh).
  - reflexivity.
  - vm_compute. reflexivity.
Defined.

(** X16. Without [--undo], when the source is not a directory, [main]
    leaves with [SystemExit 1] after two log lines, "Organizing" and
    the error, and changes nothing, dry run or not. *)
Theorem main_source_not_a_directory (E : env) (items : list string) (a : args) (w : world) :
  arg_undo a = false →
  fs w !! arg_source a ≠ Some Dir →
  main E items a w =
    Raise (SystemExit 1)
      (World (fs w)
         (log w ++ [(INFO, MsgOrganizing (arg_source a) (arg_dest a) (arg_dry_run a));
                    (ERROR, MsgNotADirectory (arg_source a))])).
Proof.
  intros Hundo Hsrc. unfold main. rewrite Hundo.
  unfold bind at 1. rewrite logger_info_Ok.
  unfold run_organize, bind at 1, get_fs. cbn [fs log].
  assert (path_is_dir (fs w) (arg_source a) = false) as ->.
  { unfold path_is_dir. by destruct (fs w !! arg_source a) as [[|g]|]. }
  change (negb false) with true. cbv beta iota. unfold bind.
  rewrite logger_error_Ok. cbn [fs log]. by rewrite <- app_assoc.
Qed.

Lemma main_source_not_a_directory_witness :
  main E0 [] (Args (child src0 "photo.png") None false false false 0) w_fresh =
    Raise (SystemExit 1)
      (World (fs w_fresh)
         [(INFO, MsgOrganizing (child src0 "photo.png") None false);
          (ERROR, MsgNotADirectory (child src0 "photo.png"))]).
Proof.
  apply (main_source_not_a_directory E0 []
           (Args (child src0 "photo.png") None false false false 0) w_fresh).
  - reflexivity.
  - vm_compute. discriminate.
Defined.

(** ** The table of categories *)

Lemma first_category_Some (cats : list (string * gset string)) (e cat : string) :
  first_category cats e = Some cat → ∃ exts, (cat, exts) ∈ cats ∧ e ∈ exts.
Proof.
  induction cats as [|[c es] cats IH]; simpl; [done|].
  case_bool_decide as Hd.
  - intros [= ->]. exists es. split; [left|done].
  - intros H. destruct (IH H) as (exts & Hin & He). exists exts. split; [by right|done].
Qed.

(** X17. The answer of the classifier does not depend on the order in
    which the table lists its categories: scanning any rearrangement
    of [CATEGORIES] gives what [which_category] gives. *)
Theorem classification_order_independent (cats : list (string * gset string))
    (ext : string) :
  cats ≡ₚ CATEGORIES →
  first_category cats (lower ext) = which_category ext.
Proof.
  intros Hperm. unfold which_category. cbv zeta.
  destruct (first_category cats (lower ext)) as [cat|] eqn:Hc.
  - apply first_category_Some in Hc as (exts & Hin & He).
    symmetry. apply (CATEGORIES_owner cat exts); [|done]. by rewrite <- Hperm.
  - symmetry. apply first_category_None. intros cat exts Hin.
    rewrite first_category_None in Hc. apply (Hc cat). by rewrite Hperm.
Qed.

Lemma classification_order_independent_witness :
  first_category (reverse CATEGORIES) (lower ".PNG") = which_category ".PNG".
Proof.
  apply (classification_order_independent (reverse CATEGORIES) ".PNG").
  apply reverse_Permutation.
Defined.

(** ** The numbered name keeps the extension *)

(** X18. The name that [safe_move] tries at counter [k] for a name
    that has an extension has the same extension, and its stem is the
    old stem followed by "_k": a file renamed on a collision is still
    classified as it was. *)
Theorem numbered_keeps_suffix (dest : path) (k : nat) :
  suffix (name_of dest) ≠ "" →
  suffix (name_of (numbered dest k)) = suffix (name_of dest) ∧
  stem (name_of (numbered dest k)) = stem (name_of dest) +:+ "_" +:+ str_of_nat k ∧
  parent (numbered dest k) = parent dest.
Proof.
  intros Hne. destruct (suffix_shape _ Hne) as [Hdot Hlen].
  unfold numbered at 1 2, with_name. rewrite !name_of_child.
  assert (stem (name_of dest) +:+ "_" +:+ str_of_nat k +:+ suffix (name_of dest) =
          (stem (name_of dest) +:+ "_" +:+ str_of_nat k) +:+ suffix (name_of dest)) as ->.
  { by rewrite !string_app_assoc. }
  destruct (suffix_app (stem (name_of dest) +:+ "_" +:+ str_of_nat k)
              (suffix (name_of dest))) as [Hs Ht]; [|done|done|].
  - rewrite !string_length_app. simpl. lia.
  - split; [done|]. split; [done|]. apply parent_numbered.
Qed.

Lemma numbered_keeps_suffix_witness :
  suffix (name_of (numbered (child (child src0 "Documents") "a.tar.GZ") 12)) = ".GZ" ∧
  stem (name_of (numbered (child (child src0 "Documents") "a.tar.GZ") 12)) = "a.tar_12" ∧
  parent (numbered (child (child src0 "Documents") "a.tar.GZ") 12) = child src0 "Documents".
Proof.
  apply (numbered_keeps_suffix (child (child src0 "Documents") "a.tar.GZ") 12).
  vm_compute. discriminate.
Defined.

(** ** What a dry run announces *)

Lemma mkdir_from_longer (base rest : path) (m m' : gmap path node) (q : path) :
  mkdir_from base rest m = inr m' →
  (length (base ++ rest) < length q)%nat →
  m' !! q = m !! q.
Proof.
  revert base m. induction rest as [|c rest IH]; intros base m; simpl.
  - by intros [= ->].
  - assert (base ++ c :: rest = child base c ++ rest) as ->.
    { unfold child. by rewrite <- app_assoc. }
    destruct (m !! child base c) as [[|f]|] eqn:Hp; [|done|].
    + apply IH.
    + intros H Hlen. rewrite (IH _ _ H Hlen).
      apply lookup_insert_ne. intros <-.
      rewrite length_app in Hlen. lia.
Qed.



(** ** The month folders *)

Lemma string_of_uint_dash_inj (d d' : Decimal.uint) (b b' : string) :
  NilEmpty.string_of_uint d +:+ String "-" b =
  NilEmpty.string_of_uint d' +:+ String "-" b' →
  d = d' ∧ b = b'.
Proof.
  revert d'. induction d as [|d IH|d IH|d IH|d IH|d IH|d IH|d IH|d IH|d IH|d IH];
    intros [|d'|d'|d'|d'|d'|d'|d'|d'|d'|d'];
    cbn [NilEmpty.string_of_uint];
    rewrite ?string_app_cons, ?string_app_nil_l;
    try discriminate;
    intros [= H]; try (apply IH in H as [-> ->]); by subst.
Qed.

(** [int(f"{n:02d}")] is [n]. *)
Lemma pad2_inj (j k : nat) : pad2 j = pad2 k → j = k.
Proof.
  assert (∀ n, option_map Nat.of_uint (NilEmpty.uint_of_string (pad2 n)) = Some n) as Hread.
  { intros n. unfold pad2, str_of_nat. destruct (n <? 10)%nat.
    - change ("0" +:+ NilEmpty.string_of_uint (Nat.to_uint n))
        with (NilEmpty.string_of_uint (Decimal.D0 (Nat.to_uint n))).
      rewrite NilEmpty.usu. simpl. unfold Nat.of_uint. simpl.
      f_equal. apply (Unsigned.of_to n).
    - rewrite NilEmpty.usu. simpl. f_equal. apply (Unsigned.of_to n). }
  intros H. pose proof (Hread j) as Hj. rewrite H, Hread in Hj. by injection Hj.
Qed.

(** X20. With [--by-date], two files are given the same folder only
    when they are of the same category folder and their modification
    times fall in the same month of the same year: the names
    "YEAR-MM" of the month folders are unambiguous. *)
Theorem month_folder_unambiguous (E : env) (dest_parent : path)
    (name1 name2 : string) (st1 st2 : file) :
  target_dir E dest_parent true name1 st1 = target_dir E dest_parent true name2 st2 →
  folder_name_of (which_category (suffix name1)) =
    folder_name_of (which_category (suffix name2)) ∧
  fromtimestamp E (st_mtime st1) = fromtimestamp E (st_mtime st2).
Proof.
  unfold target_dir. cbv zeta.
  intros [[_ Hfolder]%child_inj Hsub]%child_inj. split; [done|].
  destruct (fromtimestamp E (st_mtime st1)) as [y1 m1].
  destruct (fromtimestamp E (st_mtime st2)) as [y2 m2]. cbn [fst snd] in Hsub.
  unfold str_of_nat in Hsub.
  change ("-" +:+ pad2 m1) with (String "-" (pad2 m1)) in Hsub.
  change ("-" +:+ pad2 m2) with (String "-" (pad2 m2)) in Hsub.
  apply string_of_uint_dash_inj in Hsub as [Hy Hm].
  apply Unsigned.to_uint_inj in Hy. apply pad2_inj in Hm. by subst.
Qed.

Lemma month_folder_unambiguous_witness :
  folder_name_of (which_category (suffix "clip.mp4")) =
    folder_name_of (which_category (suffix "film.MKV")) ∧
  fromtimestamp E0 (st_mtime (mkFile 10 5 (Text "a"))) =
    fromtimestamp E0 (st_mtime (mkFile 20 7 (Text "b"))).
Proof.
  apply (month_folder_unambiguous E0 src0 "clip.mp4" "film.MKV"
           (mkFile 10 5 (Text "a")) (mkFile 20 7 (Text "b"))).
  vm_compute. reflexivity.
Defined.
